(** * moonraker/components/klippy_apis.py — shallow embedding and properties

    The component [KlippyAPI] forwards requests of the API server to the
    Klippy host.  It keeps one piece of state of its own, the dictionary
    [host_subscription], and it acts on three collaborators: the Klippy
    connection ([klippy.request], [klippy.wait_started]), the server's event
    channel ([server.send_event]) and the file system ([os], [shutil]).

    Python values are embedded as the inductive [value]; the coroutine
    methods as computations in a state-and-exception monad over [World];
    the collaborators as variables of the section [Component].

    Each method runs from its call to its return without another method
    of the component running in between: the interleaving of coroutines at
    an [await] is not part of this model, nor is a caller that changes a
    list after handing it to [subscribe_objects].

    The file system is a map from resolved paths to files and directories;
    [os.statvfs] is a variable of the section, asked by [copy_file_to_cache]
    about the root and by the copy itself about the destination, so that a
    copy can run out of space. *)

From Stdlib Require Import ZArith String Ascii List.
From stdpp Require Import base option list gmap strings fin_maps fin_sets.

Open Scope string_scope.
Open Scope Z_scope.

Set Warnings "-register-all".

(** ** Python values *)

(** [Any]: what travels in request parameters, replies and defaults.
    [VSentinel] is the one instance of [SentinelClass]. *)
Inductive value : Type :=
  | VNone
  | VSentinel
  | VBool (b : bool)
  | VInt (z : Z)
  | VStr (s : string)
  | VList (l : list value)
  | VDict (d : gmap string value).

(** [isinstance(default, SentinelClass)] *)
Definition is_sentinel (v : value) : bool :=
  match v with VSentinel => true | _ => false end.

Definition SENTINEL : value := VSentinel.

(** [isinstance(result, dict) and key in result], then [result[key]]. *)
Definition dict_get (key : string) (v : value) : option value :=
  match v with
  | VDict d => d !! key
  | _ => None
  end.

(** The exceptions that occur.  [ServerError msg code] is [self.server.error];
    [str(e)] of it is [msg]. *)
Inductive exn : Type :=
  | ServerError (msg : string) (code : Z)
  | IndexError
  | OSError (what : string)
  | OtherError (what : string).

Definition is_server_error (e : exn) : bool :=
  match e with ServerError _ _ => true | _ => false end.

Definition exn_str (e : exn) : string :=
  match e with
  | ServerError msg _ => msg
  | IndexError => "string index out of range"
  | OSError what => what
  | OtherError what => what
  end.

(** ** Endpoint names *)

Definition INFO_ENDPOINT := "info".
Definition ESTOP_ENDPOINT := "emergency_stop".
Definition LIST_EPS_ENDPOINT := "list_endpoints".
Definition GC_OUTPUT_ENDPOINT := "gcode/subscribe_output".
Definition GCODE_ENDPOINT := "gcode/script".
Definition SUBSCRIPTION_ENDPOINT := "objects/subscribe".
Definition STATUS_ENDPOINT := "objects/query".
Definition OBJ_LIST_ENDPOINT := "objects/list".
Definition REG_METHOD_ENDPOINT := "register_remote_method".

(** ** Requests, replies, the world *)

(** [WebRequest(method, params, conn=self)] *)
Record WebRequest : Type := mkWebRequest {
  wr_method : string;
  wr_params : gmap string value
}.

(** What [await self.klippy.request(...)] does: deliver a result or raise. *)
Inductive reply : Type :=
  | Result (v : value)
  | Raises (e : exn).

(** [os.statvfs(path)]: the two fields the component reads. *)
Record statvfs_result : Type := mkStatvfs {
  f_frsize : Z;
  f_bfree : Z
}.

(** Everything the component does to its collaborators, in order. *)
Inductive effect : Type :=
  | EffRequest (r : WebRequest)
  | EffWaitStarted
  | EffSendEvent (name : string) (arg : option value)
  | EffMakedirs (path : string)
  | EffRmtree (path : string)
  | EffCopy (origin target : string).

(** [Subscription = Dict[str, Optional[List[Any]]]]: an object name is absent,
    mapped to [None] (all fields), or mapped to a list of field names. *)
Abbreviation Subscription := (gmap string (option (list string))).

(** A node of the file system: a regular file with its bytes, or a directory. *)
Inductive node : Type :=
  | File (data : list Byte.byte)
  | Dir.

Record World : Type := mkWorld {
  host_subscription : Subscription;
  fs_nodes : gmap string node;
  trace : list effect
}.

Definition set_subscription (hs : Subscription) (w : World) : World :=
  mkWorld hs (fs_nodes w) (trace w).
Definition set_nodes (ns : gmap string node) (w : World) : World :=
  mkWorld (host_subscription w) ns (trace w).
Definition log (e : effect) (w : World) : World :=
  mkWorld (host_subscription w) (fs_nodes w) (trace w ++ [e]).

(** ** The monad of methods: state that survives a raised exception *)

Inductive outcome (A : Type) : Type :=
  | Returns (a : A)
  | Raised (e : exn).
Arguments Returns {A} a.
Arguments Raised {A} e.

Definition M (A : Type) : Type := World -> outcome A * World.

Definition ret {A} (a : A) : M A := fun w => (Returns a, w).
Definition raise {A} (e : exn) : M A := fun w => (Raised e, w).
Definition bind {A B} (m : M A) (k : A -> M B) : M B :=
  fun w => match m w with
           | (Returns a, w') => k a w'
           | (Raised e, w') => (Raised e, w')
           end.
(** [try: m  except self.server.error as e: h e]; other exceptions pass. *)
Definition try_except_server_error {A} (m : M A) (h : exn -> M A) : M A :=
  fun w => match m w with
           | (Returns a, w') => (Returns a, w')
           | (Raised e, w') =>
               if is_server_error e then h e w' else (Raised e, w')
           end.
Definition get_world : M World := fun w => (Returns w, w).
Definition modify (f : World -> World) : M unit := fun w => (Returns tt, f w).

Declare Scope py_scope.
Delimit Scope py_scope with py.
Notation "'let*' x ':=' m 'in' k" := (bind m (fun x => k))
  (at level 10, x pattern, m at level 100, k at level 200) : py_scope.
Notation "m ';;' k" := (bind m (fun _ => k))
  (at level 100, k at level 200, right associativity) : py_scope.
Open Scope py_scope.

Definition result_of {A} (m : M A) (w : World) : outcome A := fst (m w).
Definition world_after {A} (m : M A) (w : World) : World := snd (m w).

(** ** Strings: the [str] methods the component calls *)

Definition sep : ascii := "/"%char.
Definition dquote : ascii := "034"%char.
Definition backslash : ascii := "092"%char.

(** Python's [s + t] is written [s +:+ t]. *)

(** [s[1:]] *)
Definition str_tail (s : string) : string :=
  match s with
  | EmptyString => EmptyString
  | String _ s' => s'
  end.

(** [s.replace(old, new)] for a one-character [old]. *)
Fixpoint str_replace (old : ascii) (new : string) (s : string) : string :=
  match s with
  | EmptyString => EmptyString
  | String c s' =>
      if Ascii.eqb c old then new +:+ str_replace old new s'
      else String c (str_replace old new s')
  end.

(** [s.split(c)]: the pieces between the occurrences of [c]; never empty. *)
Fixpoint str_split (c : ascii) (s : string) : list string :=
  match s with
  | EmptyString => [EmptyString]
  | String a s' =>
      if Ascii.eqb a c then EmptyString :: str_split c s'
      else match str_split c s' with
           | piece :: pieces => String a piece :: pieces
           | [] => [String a EmptyString]
           end
  end.

(** [s.rfind(c)]: the highest index of [c] in [s], or [-1]. *)
Fixpoint str_rfind_from (c : ascii) (s : string) (i : Z) (found : Z) : Z :=
  match s with
  | EmptyString => found
  | String a s' =>
      str_rfind_from c s' (i + 1) (if Ascii.eqb a c then i else found)
  end.
Definition str_rfind (c : ascii) (s : string) : Z := str_rfind_from c s 0 (-1).

(** [s.rstrip(c)] *)
Fixpoint str_rstrip (c : ascii) (s : string) : string :=
  match s with
  | EmptyString => EmptyString
  | String a s' =>
      match str_rstrip c s' with
      | EmptyString => if Ascii.eqb a c then EmptyString else String a EmptyString
      | r => String a r
      end
  end.

(** [c * n] *)
Fixpoint str_repeat (c : ascii) (n : nat) : string :=
  match n with
  | O => EmptyString
  | S n' => String c (str_repeat c n')
  end.

(** [s[:i]] and [s[i:]] for [0 <= i] *)
Definition str_upto (i : Z) (s : string) : string :=
  substring 0 (Z.to_nat i) s.
Definition str_from (i : Z) (s : string) : string :=
  substring (Z.to_nat i) (String.length s - Z.to_nat i) s.

(** [s.startswith(t)] and [s.endswith(c)] *)
Definition str_startswith (t s : string) : bool := String.prefix t s.
Fixpoint str_endswith (c : ascii) (s : string) : bool :=
  match s with
  | EmptyString => false
  | String a EmptyString => Ascii.eqb a c
  | String _ s' => str_endswith c s'
  end.

(** ** [os.path] (posixpath) *)

(** [os.path.split(p)]:
    [i = p.rfind(sep) + 1; head, tail = p[:i], p[i:]];
    [if head and head != sep*len(head): head = head.rstrip(sep)]. *)
Definition os_path_split (p : string) : string * string :=
  let i := str_rfind sep p + 1 in
  let head := str_upto i p in
  let tail := str_from i p in
  let head :=
    if negb (String.eqb head EmptyString)
       && negb (String.eqb head (str_repeat sep (String.length head)))
    then str_rstrip sep head else head in
  (head, tail).

(** [os.path.basename(p)]: [p[p.rfind(sep) + 1:]] *)
Definition os_path_basename (p : string) : string :=
  str_from (str_rfind sep p + 1) p.

(** [os.path.join(a, b)] *)
Definition os_path_join (a b : string) : string :=
  if str_startswith (String sep EmptyString) b then b
  else if String.eqb a EmptyString || str_endswith sep a then a +:+ b
  else a +:+ String sep b.

(** The directories above [path], outermost first: what [os.makedirs]
    creates on the way. *)
Fixpoint ancestors_from (seen : string) (rest : string) : list string :=
  match rest with
  | EmptyString => []
  | String c rest' =>
      (if Ascii.eqb c sep && negb (String.eqb seen EmptyString)
       then [seen] else [])
      ++ ancestors_from (seen +:+ String c EmptyString) rest'
  end.
Definition ancestors (path : string) : list string :=
  ancestors_from EmptyString path.

(** ** The file system: [os] and [shutil] on [fs_nodes] *)

(** The keys of [fs_nodes] are paths as the operating system resolves them:
    no empty segment, no [.], one separator between two segments; a relative
    key is taken from the working directory.  A path given to [os] or
    [shutil] is resolved before it is looked up, so two spellings of one
    path reach one node.

    What the model leaves out: symbolic and hard links; permissions and
    quotas (an entry can be made wherever its directory is, and making a
    directory takes no space); and the way back through a directory that is
    not there: [..] is resolved by spelling, as [os.path.normpath] does.
    The properties of [start_print] below are stated for paths that are
    their own key ([plain_path]), where none of this matters but the links
    and the permissions. *)

Fixpoint resolve_segments (absolute : bool) (done todo : list string)
    : list string :=
  match todo with
  | [] => done
  | seg :: todo' =>
      if String.eqb seg EmptyString || String.eqb seg "." then
        resolve_segments absolute done todo'
      else if String.eqb seg ".." then
        match done with
        | [] => resolve_segments absolute (if absolute then [] else [".."]) todo'
        | inner :: done' =>
            if String.eqb inner ".."
            then resolve_segments absolute (".." :: done) todo'
            else resolve_segments absolute done' todo'
        end
      else resolve_segments absolute (seg :: done) todo'
  end.

(** ["/".join(segments)] *)
Fixpoint str_join (segments : list string) : string :=
  match segments with
  | [] => EmptyString
  | s :: rest =>
      match rest with
      | [] => s
      | _ => s +:+ String sep (str_join rest)
      end
  end.

(** The key of [path]: [/] for the root, [.] for the working directory. *)
Definition os_path_resolve (path : string) : string :=
  let absolute := str_startswith "/" path in
  let segments := rev (resolve_segments absolute [] (str_split sep path)) in
  if absolute then String sep (str_join segments)
  else match segments with
       | [] => "."
       | _ => str_join segments
       end.

(** The path ends in a separator, [.] or [..]: what it names has to be a
    directory. *)
Definition demands_dir (path : string) : bool :=
  let final := List.last (str_split sep path) EmptyString in
  String.eqb final EmptyString || String.eqb final "." || String.eqb final "..".

Definition is_root_or_cwd (key : string) : bool :=
  String.eqb key "/" || String.eqb key ".".

(** The node at a key; the root and the working directory are always there. *)
Definition node_at (ns : gmap string node) (key : string) : option node :=
  if is_root_or_cwd key then Some Dir else ns !! key.

Definition is_file_at (ns : gmap string node) (key : string) : bool :=
  match ns !! key with Some (File _) => true | _ => false end.

(** The error for a key that is not there: a regular file on the way is
    [ENOTDIR], else [ENOENT]. *)
Definition missing_error (ns : gmap string node) (key : string) : exn :=
  if existsb (is_file_at ns) (ancestors key)
  then OSError "NotADirectoryError" else OSError "FileNotFoundError".

(** [os.stat(path)]: the node that [path] names, or the error. *)
Definition stat_path (ns : gmap string node) (path : string) : exn + node :=
  if String.eqb path EmptyString then inl (OSError "FileNotFoundError")
  else
    let key := os_path_resolve path in
    match node_at ns key with
    | Some (File data) =>
        if demands_dir path then inl (OSError "NotADirectoryError")
        else inr (File data)
    | Some Dir => inr Dir
    | None => inl (missing_error ns key)
    end.


(** [os.path.exists(path)] *)
Definition os_path_exists (path : string) : M bool :=
  fun w =>
    (Returns (match stat_path (fs_nodes w) path with
              | inr _ => true
              | inl _ => false
              end), w).

(** [os.path.isdir(path)] *)
Definition is_dir (ns : gmap string node) (path : string) : bool :=
  match stat_path ns path with inr Dir => true | _ => false end.

(** The directories of [dirs] that are missing from [ns], created. *)
Definition make_missing (ns : gmap string node) (dirs : list string)
    : gmap string node :=
  foldl (fun ns d => match ns !! d with None => <[d := Dir]> ns | Some _ => ns end)
        ns dirs.

(** [os.makedirs(path)]: refuses an existing [path] and a regular file on
    the way; else creates the missing directories above it, then [path]
    itself. *)
Definition os_makedirs (path : string) : M unit :=
  fun w =>
    let w' := log (EffMakedirs path) w in
    let ns := fs_nodes w in
    let key := os_path_resolve path in
    if String.eqb path EmptyString then (Raised (OSError "FileNotFoundError"), w')
    else
      match node_at ns key with
      | Some _ => (Raised (OSError "FileExistsError"), w')
      | None =>
          if existsb (is_file_at ns) (ancestors key)
          then (Raised (OSError "NotADirectoryError"), w')
          else (Returns tt,
                set_nodes (<[key := Dir]> (make_missing ns (ancestors key))) w')
      end.

(** [path] lies below the directory [dir]. *)
Definition is_below (dir path : string) : bool :=
  str_startswith (dir +:+ String sep EmptyString) path.

(** A key of the working directory or below it: a relative one that does
    not climb out. *)
Definition is_local (key : string) : bool :=
  negb (str_startswith "/" key)
  && negb (String.eqb key "..") && negb (str_startswith "../" key).

(** [shutil.rmtree(path)]: removes all that lies below the directory, then
    the directory itself, which fails for the root ([EBUSY]) and for the
    working directory ([EINVAL]) once they have been emptied. *)
Definition shutil_rmtree (path : string) : M unit :=
  fun w =>
    let w' := log (EffRmtree path) w in
    let ns := fs_nodes w in
    let key := os_path_resolve path in
    match stat_path ns path with
    | inr Dir =>
        if String.eqb key "/" then (Raised (OSError "EBUSY"), set_nodes ∅ w')
        else if String.eqb key "." then
          (Raised (OSError "EINVAL"),
           set_nodes (filter (fun kv => is_local (fst kv) = false) ns) w')
        else
          (Returns tt,
           set_nodes
             (filter (fun kv => is_below key (fst kv) = false) (delete key ns)) w')
    | inr (File _) => (Raised (OSError "NotADirectoryError"), w')
    | inl e => (Raised e, w')
    end.

(** [dict.get(key, None)] *)
Definition dict_get_or_none (d : gmap string value) (key : string) : value :=
  match d !! key with Some v => v | None => VNone end.

(** The subscription dictionary as the value sent in [params]. *)
Definition value_of_items (items : option (list string)) : value :=
  match items with
  | None => VNone
  | Some fields => VList (VStr <$> fields)
  end.
Definition value_of_subscription (hs : Subscription) : value :=
  VDict (value_of_items <$> hs).

(** ** Sample data: the inputs at which the properties are exercised below *)

(** The objects and the reply of the example. *)
Definition toolhead_position : Subscription :=
  {[ "toolhead" := Some ["position"] ]}.
Definition toolhead_status : value :=
  VDict {[ "toolhead" := VDict {[ "position" := VList [VInt 0; VInt 0; VInt 0] ]} ]}.

(** A fresh component on an empty disk. *)
Definition fresh : World := mkWorld ∅ ∅ [].

(** Connections: one that has lost Klippy, one that times out, one that
    answers every request with the status of the tool head. *)
Definition disconnected : list effect -> WebRequest -> reply :=
  fun _ _ => Raises (ServerError "Klippy Disconnected" 503).
Definition timing_out : list effect -> WebRequest -> reply :=
  fun _ _ => Raises (ServerError "Klippy Request Timed Out" 500).
Definition reporting : list effect -> WebRequest -> reply :=
  fun _ _ => Result (VDict {[ "status" := toolhead_status ]}).

(** A printer's disk: the job file, the cache directory with the file
    staged last time. *)
Definition job_bytes : list Byte.byte := [Byte.x47; Byte.x32; Byte.x38].
Definition printer_disk : gmap string node :=
  <[ "/home" := Dir ]>
  (<[ "/home/mks" := Dir ]>
  (<[ "/home/mks/gcode_files" := Dir ]>
  (<[ "/home/mks/gcode_files/a.gcode" := File job_bytes ]>
  (<[ "/home/mks/gcode_files/.cache" := Dir ]>
  {[ "/home/mks/gcode_files/.cache/old.gcode" := File [Byte.x4d] ]})))).
Definition printer : World := mkWorld ∅ printer_disk [].

(** The job of that disk, and where its staged copy goes. *)
Definition job_path : string := "/home/mks/gcode_files/a.gcode".
Definition staged_path : string := "/home/mks/gcode_files/.cache/a.gcode".

(** The same disk with the job in a folder of its own. *)
Definition folder_disk : gmap string node :=
  <[ "/home/mks/gcode_files/sub" := Dir ]>
  (<[ "/home/mks/gcode_files/sub/a.gcode" := File job_bytes ]> printer_disk).
Definition printer_with_folder : World := mkWorld ∅ folder_disk [].

(** The requests that start the staged job and a job of the cache whose
    name holds a double quote. *)
Definition staged_request : WebRequest :=
  mkWebRequest "gcode/script"
    {[ "script" :=
         VStr ("SDCARD_PRINT_FILE FILENAME="
               +:+ String dquote (".cache/a.gcode" +:+ String dquote "")) ]}.
Definition quoted_name : string := ".cache/a" +:+ String dquote "b.gcode".
Definition quoted_request : WebRequest :=
  mkWebRequest "gcode/script"
    {[ "script" :=
         VStr ("SDCARD_PRINT_FILE FILENAME="
               +:+ String dquote
                     ((".cache/a" +:+ String backslash (String dquote "b.gcode"))
                      +:+ String dquote "")) ]}.

(** File systems: one with room everywhere, one that is full everywhere,
    one whose root is full while the home partition has room, and one whose
    root has room while the home partition is full. *)
Definition roomy : list effect -> string -> statvfs_result :=
  fun _ _ => mkStatvfs 4096 1000.
Definition root_full : list effect -> string -> statvfs_result :=
  fun _ path => if String.eqb path "/" then mkStatvfs 4096 0
                else mkStatvfs 4096 1000.
Definition home_full : list effect -> string -> statvfs_result :=
  fun _ path => if String.eqb path "/" then mkStatvfs 4096 1000
                else mkStatvfs 4096 0.

(** A connection whose transport breaks with an exception that is not the
    server's error. *)
Definition broken : list effect -> WebRequest -> reply :=
  fun _ _ => Raises (OtherError "ConnectionResetError").

(** A registry that holds two objects. *)
Definition two_objects : Subscription :=
  <[ "extruder" := Some ["temperature"] ]> {[ "toolhead" := None ]}.
Definition subscribed : World := mkWorld two_objects ∅ [].

(** ** The component *)

Section Component.

Set Default Proof Using "Type".

(** The Klippy connection: the reply to a request may depend on everything
    that happened before it. *)
Variable klippy_request : list effect -> WebRequest -> reply.
(** [os.statvfs(path)], the statistics of the file system that holds [path];
    [os.path.getsize] of a directory; [os.path.expanduser("~")];
    [self.fm.gcode_metadata.metadata]; [json.dumps]; [self.version]. *)
Variable os_statvfs : list effect -> string -> statvfs_result.
Variable dir_st_size : Z.
Variable homedir : string.
Variable gcode_metadata : gmap string value.
Variable json_dumps : value -> string.
Variable software_version : value.
(** [list(s)] of a set [s]: Python fixes no order, only the elements. *)
Variable list_of_set : gset string -> list string.
Hypothesis list_of_set_elements : forall X : gset string, list_of_set X ≡ₚ elements X.

(** [await self.klippy.request(WebRequest(method, params, conn=self))] *)
Definition klippy_send (method : string) (params : gmap string value) : M value :=
  fun w =>
    let r := mkWebRequest method params in
    let w' := log (EffRequest r) w in
    match klippy_request (trace w) r with
    | Result v => (Returns v, w')
    | Raises e => (Raised e, w')
    end.

(** [await self.klippy.wait_started()]; the flag it returns is not used. *)
Definition wait_started : M unit := modify (log EffWaitStarted).

(** [self.server.send_event(name, arg)] *)
Definition send_event (name : string) (arg : option value) : M unit :=
  modify (log (EffSendEvent name arg)).

(** [os.path.getsize(path)] *)
Definition os_path_getsize (path : string) : M Z :=
  fun w =>
    match stat_path (fs_nodes w) path with
    | inr (File data) => (Returns (Z.of_nat (length data)), w)
    | inr Dir => (Returns dir_st_size, w)
    | inl e => (Raised e, w)
    end.

(** [shutil.copy(origin, target)]: into [target] when it is a directory.
    The source is opened first (it has to be a regular file), then the
    destination (its directory has to be there, and a destination spelled
    as a directory is refused), then the bytes are written: when the file
    system that holds the destination has fewer free bytes than the file
    has, the copy raises [ENOSPC] and leaves what fitted. *)
Definition shutil_copy (origin target : string) : M unit :=
  fun w =>
    let w' := log (EffCopy origin target) w in
    let ns := fs_nodes w in
    let dst := if is_dir ns target
               then os_path_join target (os_path_basename origin)
               else target in
    let key := os_path_resolve dst in
    let parent := os_path_resolve (fst (os_path_split key)) in
    let stat := os_statvfs (trace w) key in
    let room := f_frsize stat * f_bfree stat in
    match stat_path ns origin with
    | inl e => (Raised e, w')
    | inr Dir => (Raised (OSError "IsADirectoryError"), w')
    | inr (File data) =>
        if String.eqb dst EmptyString then (Raised (OSError "FileNotFoundError"), w')
        else if String.eqb (os_path_resolve origin) key && negb (demands_dir dst)
        then (Raised (OSError "SameFileError"), w')
        else
          match node_at ns key, node_at ns parent with
          | Some Dir, _ => (Raised (OSError "IsADirectoryError"), w')
          | _, Some (File _) => (Raised (OSError "NotADirectoryError"), w')
          | _, None => (Raised (missing_error ns parent), w')
          | at_key, Some Dir =>
              if demands_dir dst then
                match at_key with
                | Some (File _) => (Raised (OSError "NotADirectoryError"), w')
                | _ => (Raised (OSError "IsADirectoryError"), w')
                end
              else if Z.of_nat (length data) <=? room
              then (Returns tt, set_nodes (<[key := File data]> ns) w')
              else (Raised (OSError "ENOSPC"),
                    set_nodes (<[key := File (take (Z.to_nat room) data)]> ns) w')
          end
    end.

Definition _send_klippy_request
    (method : string) (params : gmap string value) (default : value) : M value :=
  try_except_server_error
    (klippy_send method params)
    (fun e => if is_sentinel default then raise e else ret default).

Definition run_gcode (script : string) (default : value) : M value :=
  let params : gmap string value := {[ "script" := VStr script ]} in
  let* result := _send_klippy_request GCODE_ENDPOINT params default in
  ret result.

Definition copy_file_to_cache (origin target : string) : M unit :=
  let* stat := (fun w => (Returns (os_statvfs (trace w) "/"), w)) in
  let free_space := f_frsize stat * f_bfree stat in
  let* filesize := os_path_getsize origin in
  if filesize <? free_space then
    shutil_copy origin target
  else
    let msg := "!! Insufficient disk space, unable to read the file." in
    send_event "server:gcode_response" (Some (VStr msg)) ;;
    raise (ServerError "Insufficient disk space, unable to read the file." 500).

(** The first lines of [start_print]: strip one leading separator, escape
    the double quotes.  [filename[0]] raises on the empty string. *)
Definition normalize_filename (filename : string) : M string :=
  match filename with
  | EmptyString => raise IndexError
  | String c rest =>
      let filename := if Ascii.eqb c sep then str_tail filename else filename in
      ret (str_replace dquote (String backslash (String dquote EmptyString)) filename)
  end.

(** [os.path.split(filename)[0].split(os.path.sep)[0]] *)
Definition first_dir_segment (filename : string) : string :=
  hd EmptyString (str_split sep (fst (os_path_split filename))).

Definition sdcard_print_script (filename : string) : string :=
  "SDCARD_PRINT_FILE FILENAME=" +:+ String dquote (filename +:+ String dquote EmptyString).

Definition start_print (filename : string) : M value :=
  let* filename := normalize_filename filename in
  let* filename :=
    if negb (String.eqb (first_dir_segment filename) ".cache") then
      let base_path := os_path_join homedir "gcode_files" in
      let target := os_path_join ".cache" (os_path_basename filename) in
      let cache_path := os_path_join base_path ".cache" in
      let* present := os_path_exists cache_path in
      (if negb present then os_makedirs cache_path else ret tt) ;;
      shutil_rmtree cache_path ;;
      os_makedirs cache_path ;;
      let metadata := dict_get_or_none gcode_metadata filename in
      copy_file_to_cache (os_path_join base_path filename)
                         (os_path_join base_path target) ;;
      let msg := "// metadata=" +:+ json_dumps metadata in
      send_event "server:gcode_response" (Some (VStr msg)) ;;
      ret target
    else ret filename in
  let script := sdcard_print_script filename in
  wait_started ;;
  run_gcode script SENTINEL.

Definition pause_print (default : value) : M value :=
  send_event "klippy_apis:pause_requested" None ;;
  _send_klippy_request "pause_resume/pause" ∅ default.

Definition resume_print (default : value) : M value :=
  send_event "klippy_apis:resume_requested" None ;;
  _send_klippy_request "pause_resume/resume" ∅ default.

Definition cancel_print (default : value) : M value :=
  send_event "klippy_apis:cancel_requested" None ;;
  _send_klippy_request "pause_resume/cancel" ∅ default.

Definition do_restart (gc : string) : M value :=
  wait_started ;;
  try_except_server_error
    (run_gcode gc SENTINEL)
    (fun e => if String.eqb (exn_str e) "Klippy Disconnected"
              then ret (VStr "ok")
              else raise e).

Definition list_endpoints (default : value) : M value :=
  _send_klippy_request LIST_EPS_ENDPOINT ∅ default.

Definition emergency_stop : M value :=
  _send_klippy_request ESTOP_ENDPOINT ∅ SENTINEL.

Definition get_klippy_info (send_id : bool) (default : value) : M value :=
  let params : gmap string value :=
    if send_id then
      {[ "client_info" :=
           VDict (<[ "program" := VStr "Moonraker" ]>
                    {[ "version" := software_version ]}) ]}
    else ∅ in
  _send_klippy_request INFO_ENDPOINT params default.

(** [if isinstance(result, dict) and key in result: return result[key]]
    [return result] *)
Definition unwrap (key : string) (result : value) : value :=
  match dict_get key result with
  | Some v => v
  | None => result
  end.

Definition get_object_list (default : value) : M value :=
  let* result := _send_klippy_request OBJ_LIST_ENDPOINT ∅ default in
  ret (unwrap "objects" result).

Definition query_objects (objects : Subscription) (default : value) : M value :=
  let params : gmap string value := {[ "objects" := value_of_subscription objects ]} in
  let* result := _send_klippy_request STATUS_ENDPOINT params default in
  ret (unwrap "status" result).

(** One round of the loop of [subscribe_objects]. *)
Definition merge_item (hs : Subscription) (item : string * option (list string))
    : Subscription :=
  let '(obj, items) := item in
  match hs !! obj with
  | Some prev =>
      match items, prev with
      | Some items, Some prev =>
          let uitems := list_of_set (list_to_set prev ∪ list_to_set items) in
          <[obj := Some uitems]> hs
      | _, _ => <[obj := None]> hs
      end
  | None => <[obj := items]> hs
  end.

(** The entry of one object after a round of the loop for that object. *)
Definition merge_entry (prev : option (option (list string)))
    (items : option (list string)) : option (list string) :=
  match prev with
  | None => items
  | Some None => None
  | Some (Some prev) =>
      match items with
      | None => None
      | Some items => Some (list_of_set (list_to_set prev ∪ list_to_set items))
      end
  end.

(** [for obj, items in objects.items(): ...] *)
Definition merge_items (items : list (string * option (list string)))
    (hs : Subscription) : Subscription :=
  foldl merge_item hs items.

Definition merge_subscription (objects : Subscription) (hs : Subscription)
    : Subscription :=
  merge_items (map_to_list objects) hs.

Definition subscribe_objects (objects : Subscription) (default : value) : M value :=
  modify (fun w => set_subscription (merge_subscription objects (host_subscription w)) w) ;;
  let* w := get_world in
  let params : gmap string value :=
    {[ "objects" := value_of_subscription (host_subscription w) ]} in
  let* result := _send_klippy_request SUBSCRIPTION_ENDPOINT params default in
  ret (unwrap "status" result).

Definition subscribe_gcode_output : M value :=
  let template : gmap string value :=
    {[ "response_template" := VDict {[ "method" := VStr "process_gcode_response" ]} ]} in
  _send_klippy_request GC_OUTPUT_ENDPOINT template SENTINEL.

Definition register_method (method_name : string) : M value :=
  _send_klippy_request REG_METHOD_ENDPOINT
    (<[ "response_template" := VDict {[ "method" := VStr method_name ]} ]>
       {[ "remote_method" := VStr method_name ]})
    SENTINEL.

Definition send_status (status : gmap string value) : M unit :=
  send_event "server:status_update" (Some (VDict status)).

(** The registered handlers. *)
Definition _gcode_pause : M value := pause_print SENTINEL.
Definition _gcode_resume : M value := resume_print SENTINEL.
Definition _gcode_cancel : M value := cancel_print SENTINEL.
Definition _gcode_start_print (filename : string) : M value := start_print filename.
Definition _gcode_restart : M value := do_restart "RESTART".
Definition _gcode_firmware_restart : M value := do_restart "FIRMWARE_RESTART".

(** A caller that makes one [subscribe_objects] call after the other, going
    on whether a call returned or raised. *)
Definition subscribe_all (calls : list (Subscription * value)) (w : World) : World :=
  foldl (fun w call => world_after (subscribe_objects (fst call) (snd call)) w) w calls.

(** The field list that a call supplies for [obj] (none: the empty list). *)
Definition fields_requested (obj : string) (call : Subscription * value)
    : list string :=
  match fst call !! obj with
  | Some (Some fields) => fields
  | _ => []
  end.

(** The fields an entry stands for: absent, all fields, or a set. *)
Definition entry_fields (entry : option (option (list string)))
    : option (option (gset string)) :=
  match entry with
  | None => None
  | Some None => Some None
  | Some (Some fields) => Some (Some (list_to_set fields))
  end.

(** The index of the last occurrence of [c] in [s], if there is one. *)
Fixpoint last_pos (c : ascii) (s : string) : option nat :=
  match s with
  | EmptyString => None
  | String a s' =>
      match last_pos c s' with
      | Some k => Some (S k)
      | None => if Ascii.eqb a c then Some O else None
      end
  end.

(** Every double quote of [s] stands right after a backslash
    ([after_backslash]: the character before [s] was one). *)
Fixpoint quotes_escaped_from (after_backslash : bool) (s : string) : bool :=
  match s with
  | EmptyString => true
  | String c s' =>
      if Ascii.eqb c dquote then after_backslash && quotes_escaped_from false s'
      else quotes_escaped_from (Ascii.eqb c backslash) s'
  end.
Definition quotes_escaped (s : string) : bool := quotes_escaped_from false s.

(** The branch of [start_print] that stages the file, by itself: it
    returns the name of the staged copy. *)
Definition stage_job (filename : string) : M string :=
  let base_path := os_path_join homedir "gcode_files" in
  let target := os_path_join ".cache" (os_path_basename filename) in
  let cache_path := os_path_join base_path ".cache" in
  let* present := os_path_exists cache_path in
  (if negb present then os_makedirs cache_path else ret tt) ;;
  shutil_rmtree cache_path ;;
  os_makedirs cache_path ;;
  let metadata := dict_get_or_none gcode_metadata filename in
  copy_file_to_cache (os_path_join base_path filename)
                     (os_path_join base_path target) ;;
  let msg := "// metadata=" +:+ json_dumps metadata in
  send_event "server:gcode_response" (Some (VStr msg)) ;;
  ret target.

(** Effects that do not reach Klippy. *)
Definition is_klippy_effect (e : effect) : bool :=
  match e with
  | EffRequest _ | EffWaitStarted => true
  | _ => false
  end.

(** [m] adds to the trace only effects that do not reach Klippy. *)
Definition klippy_free {A} (m : M A) : Prop :=
  forall w, exists es,
    trace (snd (m w)) = (trace w ++ es)%list
    /\ forallb (fun e => negb (is_klippy_effect e)) es = true.

(** Case analysis on every test of the goal. *)
Ltac split_cases :=
  repeat match goal with
         | |- context [if ?b then _ else _] => destruct b
         | |- context [match ?x with _ => _ end] => destruct x
         end.

(** * Properties *)

(** ** [str] and [os.path] on sample paths *)

Example os_path_split_samples :
  os_path_split ".cache/a.gcode" = (".cache", "a.gcode")
  /\ os_path_split ".cache" = ("", ".cache")
  /\ os_path_split "sub/dir/a.gcode" = ("sub/dir", "a.gcode")
  /\ os_path_split ".cache//" = (".cache", "")
  /\ os_path_split "///a" = ("///", "a").
Proof. repeat split; reflexivity. Qed.

Example os_path_join_samples :
  os_path_join "/home/mks" "gcode_files" = "/home/mks/gcode_files"
  /\ os_path_join "/home/mks/" "gcode_files" = "/home/mks/gcode_files"
  /\ os_path_join "/home/mks/gcode_files" "/abs.gcode" = "/abs.gcode"
  /\ os_path_join ".cache" (os_path_basename "sub/dir/a.gcode") = ".cache/a.gcode".
Proof. repeat split; reflexivity. Qed.

Example str_split_samples :
  str_split sep "sub/dir" = ["sub"; "dir"]
  /\ str_split sep "" = [""]
  /\ str_split sep "/a" = [""; "a"].
Proof. repeat split; reflexivity. Qed.

Lemma str_split_nonempty c s : str_split c s <> [].
Proof.
  destruct s as [|a s]; cbn; [discriminate|].
  destruct (Ascii.eqb a c); [discriminate|].
  destruct (str_split c s); discriminate.
Qed.

(** ** The request bridge *)

Lemma klippy_send_result method params w v :
  klippy_request (trace w) (mkWebRequest method params) = Result v ->
  klippy_send method params w
  = (Returns v, log (EffRequest (mkWebRequest method params)) w).
Proof. intros H. unfold klippy_send. cbn zeta. now rewrite H. Qed.

Lemma klippy_send_raises method params w e :
  klippy_request (trace w) (mkWebRequest method params) = Raises e ->
  klippy_send method params w
  = (Raised e, log (EffRequest (mkWebRequest method params)) w).
Proof. intros H. unfold klippy_send. cbn zeta. now rewrite H. Qed.

(** What [_send_klippy_request] gives for each reply of the connection. *)
Lemma send_klippy_request_eq method params default w :
  _send_klippy_request method params default w
  = (match klippy_request (trace w) (mkWebRequest method params) with
     | Result v => Returns v
     | Raises e =>
         if is_server_error e && negb (is_sentinel default)
         then Returns default else Raised e
     end,
     log (EffRequest (mkWebRequest method params)) w).
Proof.
  unfold _send_klippy_request, try_except_server_error, klippy_send. cbn zeta.
  destruct (klippy_request _ _) as [v|e]; [reflexivity|].
  destruct (is_server_error e); [|reflexivity].
  destruct (is_sentinel default); reflexivity.
Qed.

(** C1. When the connection raises the server's error for a request, the
    bridge called with the sentinel as default raises that very error, and
    called with any default that is not the sentinel it returns the default;
    in both cases the request was sent once. *)
Theorem send_klippy_request_default method params w e :
  klippy_request (trace w) (mkWebRequest method params) = Raises e ->
  is_server_error e = true ->
  _send_klippy_request method params SENTINEL w
  = (Raised e, log (EffRequest (mkWebRequest method params)) w)
  /\ forall X, is_sentinel X = false ->
       _send_klippy_request method params X w
       = (Returns X, log (EffRequest (mkWebRequest method params)) w).
Proof.
  intros Hreply Herr. split.
  - rewrite send_klippy_request_eq, Hreply, Herr. reflexivity.
  - intros X HX. rewrite send_klippy_request_eq, Hreply, Herr, HX. reflexivity.
Qed.

(** ** The subscription registry *)

Lemma merge_item_lookup_eq hs obj items :
  merge_item hs (obj, items) !! obj = Some (merge_entry (hs !! obj) items).
Proof.
  unfold merge_item, merge_entry.
  destruct (hs !! obj) as [[prev|]|] eqn:E; destruct items as [items|];
    now rewrite lookup_insert_eq.
Qed.

Lemma merge_item_lookup_ne hs obj k items :
  k <> obj -> merge_item hs (k, items) !! obj = hs !! obj.
Proof.
  intros Hne. unfold merge_item.
  destruct (hs !! k) as [[prev|]|]; destruct items as [items|];
    now rewrite lookup_insert_ne.
Qed.

Lemma merge_items_cons item l hs :
  merge_items (item :: l) hs = merge_items l (merge_item hs item).
Proof. reflexivity. Qed.

Lemma merge_items_lookup_notin l hs obj :
  obj ∉ l.*1 -> merge_items l hs !! obj = hs !! obj.
Proof.
  revert hs. induction l as [|[k v] l IH]; intros hs Hnotin; [reflexivity|].
  cbn in Hnotin. apply not_elem_of_cons in Hnotin as [Hne Hnotin].
  rewrite merge_items_cons, (IH _ Hnotin). apply merge_item_lookup_ne. congruence.
Qed.

Lemma merge_items_lookup_in l hs obj items :
  NoDup l.*1 -> (obj, items) ∈ l ->
  merge_items l hs !! obj = Some (merge_entry (hs !! obj) items).
Proof.
  revert hs. induction l as [|[k v] l IH]; intros hs Hnodup Hin.
  - now apply elem_of_nil in Hin.
  - cbn in Hnodup. apply NoDup_cons in Hnodup as [Hk Hnodup].
    apply elem_of_cons in Hin as [Heq|Hin].
    + injection Heq as -> ->.
      rewrite merge_items_cons, (merge_items_lookup_notin _ _ _ Hk).
      apply merge_item_lookup_eq.
    + assert (k <> obj) as Hne.
      { intros ->. apply Hk. apply list_elem_of_fmap. now exists (obj, items). }
      rewrite merge_items_cons, (IH _ Hnodup Hin). now rewrite merge_item_lookup_ne.
Qed.

(** The loop handles every object of [objects] once, and touches no other:
    the order in which [items()] yields them does not matter. *)
Lemma merge_subscription_lookup objects hs obj :
  merge_subscription objects hs !! obj
  = match objects !! obj with
    | Some items => Some (merge_entry (hs !! obj) items)
    | None => hs !! obj
    end.
Proof.
  unfold merge_subscription. destruct (objects !! obj) as [items|] eqn:E.
  - apply merge_items_lookup_in; [apply NoDup_fst_map_to_list|].
    now apply elem_of_map_to_list.
  - apply merge_items_lookup_notin. intros Hin.
    apply list_elem_of_fmap in Hin as [[k v] [-> Hin]].
    apply elem_of_map_to_list in Hin. cbn in E. congruence.
Qed.

Lemma merge_items_permutation l l' hs :
  NoDup l.*1 -> l ≡ₚ l' -> merge_items l hs = merge_items l' hs.
Proof.
  intros Hnodup Hperm. apply map_eq. intros obj.
  assert (NoDup l'.*1) as Hnodup' by now rewrite <- Hperm.
  destruct (decide (obj ∈ l.*1)) as [Hin|Hnotin].
  - apply list_elem_of_fmap in Hin as [[k v] [-> Hin]]. cbn.
    rewrite (merge_items_lookup_in l _ _ v Hnodup Hin).
    rewrite Hperm in Hin. now rewrite (merge_items_lookup_in l' _ _ v Hnodup' Hin).
  - rewrite (merge_items_lookup_notin l _ _ Hnotin).
    rewrite Hperm in Hnotin. now rewrite (merge_items_lookup_notin l' _ _ Hnotin).
Qed.

(** What one call of [subscribe_objects] does, for each reply. *)
Lemma subscribe_objects_eq objects default w :
  let merged := merge_subscription objects (host_subscription w) in
  let req := mkWebRequest SUBSCRIPTION_ENDPOINT
               {[ "objects" := value_of_subscription merged ]} in
  subscribe_objects objects default w
  = (match klippy_request (trace w) req with
     | Result v => Returns (unwrap "status" v)
     | Raises e =>
         if is_server_error e && negb (is_sentinel default)
         then Returns (unwrap "status" default) else Raised e
     end,
     log (EffRequest req) (set_subscription merged w)).
Proof.
  intros merged req. unfold subscribe_objects, bind, modify, get_world, ret.
  rewrite send_klippy_request_eq. cbn.
  fold merged. fold req.
  destruct (klippy_request (trace w) req) as [v|e]; [reflexivity|].
  destruct (is_server_error e && negb (is_sentinel default)); reflexivity.
Qed.

Lemma subscribe_objects_registry objects default w :
  host_subscription (world_after (subscribe_objects objects default) w)
  = merge_subscription objects (host_subscription w).
Proof. unfold world_after. rewrite subscribe_objects_eq. reflexivity. Qed.

Lemma subscribe_all_cons call calls w :
  subscribe_all (call :: calls) w
  = subscribe_all calls (world_after (subscribe_objects (fst call) (snd call)) w).
Proof. reflexivity. Qed.

(** C2. Once the registry maps an object to [None] (all fields), it maps it
    to [None] after any further calls of [subscribe_objects], whatever field
    lists, empty or not, they supply for the object and however the
    connection answers. *)
Theorem all_fields_never_narrowed obj calls w :
  host_subscription w !! obj = Some None ->
  host_subscription (subscribe_all calls w) !! obj = Some None.
Proof.
  revert w. induction calls as [|[objects default] calls IH]; intros w Hall.
  - exact Hall.
  - rewrite subscribe_all_cons. apply IH. cbn [fst snd].
    rewrite subscribe_objects_registry, merge_subscription_lookup, Hall.
    now destruct (objects !! obj).
Qed.

Lemma list_of_set_to_set (X : gset string) : list_to_set (list_of_set X) = X.
Proof using list_of_set_elements. rewrite (list_of_set_elements X). apply list_to_set_elements_L. Qed.

Lemma list_of_set_NoDup (X : gset string) : NoDup (list_of_set X).
Proof using list_of_set_elements. rewrite (list_of_set_elements X). apply NoDup_elements. Qed.

(** From a finite entry on, calls with finite lists add their fields. *)
Lemma subscribe_all_finite obj calls w prev :
  host_subscription w !! obj = Some (Some prev) ->
  Forall (fun call => exists S, fst call !! obj = Some (Some S)) calls ->
  exists fields,
    host_subscription (subscribe_all calls w) !! obj = Some (Some fields)
    /\ list_to_set fields
       =@{gset string} list_to_set prev
                       ∪ ⋃ (list_to_set <$> (fields_requested obj <$> calls)).
Proof using list_of_set_elements.
  revert w prev. induction calls as [|[objects default] calls IH];
    intros w prev Hprev Hfin.
  - exists prev. split; [exact Hprev|]. cbn. now rewrite union_empty_r_L.
  - apply Forall_cons in Hfin as [[S HS] Hfin]. cbn [fst] in HS.
    rewrite subscribe_all_cons. cbn [fst snd].
    destruct (IH (world_after (subscribe_objects objects default) w)
                 (list_of_set (list_to_set prev ∪ list_to_set S))) as (fields & Hf & Hset);
      [|exact Hfin|].
    + rewrite subscribe_objects_registry, merge_subscription_lookup, HS, Hprev.
      reflexivity.
    + exists fields. split; [exact Hf|]. rewrite Hset, list_of_set_to_set.
      rewrite !fmap_cons, union_list_cons. unfold fields_requested at 2.
      cbn [fst]. rewrite HS. now rewrite (assoc_L (∪)).
Qed.

(** The same for an object the registry does not hold yet: the first call
    stores its list as it is. *)
Lemma subscribe_all_fresh obj calls w :
  host_subscription w !! obj = None ->
  calls <> [] ->
  Forall (fun call => exists S, fst call !! obj = Some (Some S)) calls ->
  exists fields,
    host_subscription (subscribe_all calls w) !! obj = Some (Some fields)
    /\ list_to_set fields
       =@{gset string} ⋃ (list_to_set <$> (fields_requested obj <$> calls)).
Proof using list_of_set_elements.
  intros Hnone Hne Hfin. destruct calls as [|[objects default] calls]; [done|].
  apply Forall_cons in Hfin as [[S HS] Hfin]. cbn [fst] in HS.
  rewrite subscribe_all_cons. cbn [fst snd].
  destruct (subscribe_all_finite obj calls
              (world_after (subscribe_objects objects default) w) S)
    as (fields & Hf & Hset); [|exact Hfin|].
  - rewrite subscribe_objects_registry, merge_subscription_lookup, HS, Hnone.
    reflexivity.
  - exists fields. split; [exact Hf|]. rewrite Hset.
    rewrite !fmap_cons, union_list_cons. unfold fields_requested at 2.
    cbn [fst]. now rewrite HS.
Qed.

Lemma fields_requested_Forall2 obj calls (sets : list (list string)) :
  Forall2 (fun call S => fst call !! obj = Some (Some S)) calls sets ->
  sets = fields_requested obj <$> calls
  /\ Forall (fun call => exists S, fst call !! obj = Some (Some S)) calls.
Proof.
  induction 1 as [|call S calls sets HS _ [IH1 IH2]]; [by split|].
  split.
  - rewrite fmap_cons. unfold fields_requested at 1. rewrite HS. now f_equal.
  - apply Forall_cons. split; [now exists S|exact IH2].
Qed.

(** C3. For an object the registry does not hold yet, after a sequence of
    calls of [subscribe_objects] that supply the field lists S1, S2, ... for
    it, the registry holds for it a list whose set of elements is the union
    of the Si; and that holds for the calls made in any order. *)
Theorem merge_is_union_in_any_order obj (calls : list (Subscription * value))
    (sets : list (list string)) w :
  host_subscription w !! obj = None ->
  calls <> [] ->
  Forall2 (fun call S => fst call !! obj = Some (Some S)) calls sets ->
  forall calls', calls' ≡ₚ calls ->
  exists fields,
    host_subscription (subscribe_all calls' w) !! obj = Some (Some fields)
    /\ list_to_set fields =@{gset string} ⋃ (list_to_set <$> sets).
Proof using list_of_set_elements.
  intros Hnone Hne Hsets calls' Hperm.
  apply fields_requested_Forall2 in Hsets as [-> Hfin].
  rewrite <- Hperm in Hfin.
  assert (calls' <> []) as Hne'.
  { intros ->. apply Permutation_nil_l in Hperm. exact (Hne (eq_sym Hperm)). }
  destruct (subscribe_all_fresh obj calls' w Hnone Hne' Hfin) as (fields & Hf & Hset).
  exists fields. split; [exact Hf|]. rewrite Hset. now rewrite Hperm.
Qed.

(** ** Unwrapping replies *)

Lemma unwrap_present key d x : d !! key = Some x -> unwrap key (VDict d) = x.
Proof. intros H. unfold unwrap. cbn. now rewrite H. Qed.

Lemma unwrap_absent key v :
  (forall d, v = VDict d -> d !! key = None) -> unwrap key v = v.
Proof.
  intros H. unfold unwrap. destruct v; try reflexivity.
  cbn. now rewrite (H d eq_refl).
Qed.

Lemma merge_subscription_keeps objects hs obj :
  is_Some (hs !! obj) -> is_Some (merge_subscription objects hs !! obj).
Proof.
  intros Hsome. rewrite merge_subscription_lookup.
  destruct (objects !! obj); [eauto|exact Hsome].
Qed.

Lemma merge_subscription_adds objects hs obj :
  is_Some (objects !! obj) -> is_Some (merge_subscription objects hs !! obj).
Proof.
  intros [items Hitems]. rewrite merge_subscription_lookup, Hitems. eauto.
Qed.

(** C4. A call of [subscribe_objects] first merges the requested objects
    into the registry, which then holds every object it held before and
    every requested one; it sends one request, to [objects/subscribe], whose
    [objects] parameter is the whole registry after the merge; and when the
    connection replies [v], it returns [v["status"]] if [v] is a dictionary
    with the key [status], else [v] itself. *)
Theorem subscribe_objects_sends_whole_registry objects default w :
  let merged := merge_subscription objects (host_subscription w) in
  let req := mkWebRequest "objects/subscribe"
               {[ "objects" := value_of_subscription merged ]} in
  let w' := world_after (subscribe_objects objects default) w in
  host_subscription w' = merged
  /\ (forall obj, is_Some (host_subscription w !! obj) -> is_Some (merged !! obj))
  /\ (forall obj, is_Some (objects !! obj) -> is_Some (merged !! obj))
  /\ trace w' = (trace w ++ [EffRequest req])%list
  /\ forall v, klippy_request (trace w) req = Result v ->
       (forall d status, v = VDict d -> d !! "status" = Some status ->
          result_of (subscribe_objects objects default) w = Returns status)
       /\ ((forall d, v = VDict d -> d !! "status" = None) ->
          result_of (subscribe_objects objects default) w = Returns v).
Proof.
  intros merged req w'. subst w'. unfold world_after, result_of.
  pose proof (subscribe_objects_eq objects default w) as Heq. cbn zeta in Heq.
  fold merged in Heq. change SUBSCRIPTION_ENDPOINT with "objects/subscribe" in Heq.
  fold req in Heq. rewrite Heq. cbn [fst snd].
  split; [reflexivity|].
  split; [intros obj; apply merge_subscription_keeps|].
  split; [intros obj; apply merge_subscription_adds|].
  split; [reflexivity|].
  intros v Hv. rewrite Hv. split.
  - intros d status -> Hstatus. now rewrite (unwrap_present _ _ _ Hstatus).
  - intros Hnot. now rewrite (unwrap_absent _ _ Hnot).
Qed.


Lemma query_objects_eq objects default w :
  let req := mkWebRequest STATUS_ENDPOINT
               {[ "objects" := value_of_subscription objects ]} in
  query_objects objects default w
  = (match klippy_request (trace w) req with
     | Result v => Returns (unwrap "status" v)
     | Raises e =>
         if is_server_error e && negb (is_sentinel default)
         then Returns (unwrap "status" default) else Raised e
     end,
     log (EffRequest req) w).
Proof.
  intros req. unfold query_objects, bind, ret.
  rewrite send_klippy_request_eq. fold req.
  destruct (klippy_request (trace w) req) as [v|e]; [reflexivity|].
  destruct (is_server_error e && negb (is_sentinel default)); reflexivity.
Qed.

Lemma get_object_list_eq default w :
  let req := mkWebRequest OBJ_LIST_ENDPOINT ∅ in
  get_object_list default w
  = (match klippy_request (trace w) req with
     | Result v => Returns (unwrap "objects" v)
     | Raises e =>
         if is_server_error e && negb (is_sentinel default)
         then Returns (unwrap "objects" default) else Raised e
     end,
     log (EffRequest req) w).
Proof.
  intros req. unfold get_object_list, bind, ret.
  rewrite send_klippy_request_eq. fold req.
  destruct (klippy_request (trace w) req) as [v|e]; [reflexivity|].
  destruct (is_server_error e && negb (is_sentinel default)); reflexivity.
Qed.

(** C8. When the connection replies [v] to [objects/query], [query_objects]
    returns [v["status"]] if [v] is a dictionary with the key [status], else
    [v]; when it replies [v] to [objects/list], [get_object_list] returns
    [v["objects"]] if [v] is a dictionary with the key [objects], else [v].
    So [query_objects({"toolhead": ["position"]})], replied to with
    [{"status": {"toolhead": {"position": [0,0,0]}}}], returns
    [{"toolhead": {"position": [0,0,0]}}]. *)
Theorem query_objects_and_object_list_unwrap default w :
  (forall objects v,
     klippy_request (trace w)
       (mkWebRequest "objects/query" {[ "objects" := value_of_subscription objects ]})
     = Result v ->
     (forall d status, v = VDict d -> d !! "status" = Some status ->
        result_of (query_objects objects default) w = Returns status)
     /\ ((forall d, v = VDict d -> d !! "status" = None) ->
        result_of (query_objects objects default) w = Returns v))
  /\ (forall v,
     klippy_request (trace w) (mkWebRequest "objects/list" ∅) = Result v ->
     (forall d objs, v = VDict d -> d !! "objects" = Some objs ->
        result_of (get_object_list default) w = Returns objs)
     /\ ((forall d, v = VDict d -> d !! "objects" = None) ->
        result_of (get_object_list default) w = Returns v))
  /\ (klippy_request (trace w)
       (mkWebRequest "objects/query"
          {[ "objects" := VDict {[ "toolhead" := VList [VStr "position"] ]} ]})
     = Result (VDict {[ "status" := toolhead_status ]}) ->
     result_of (query_objects toolhead_position default) w = Returns toolhead_status).
Proof.
  unfold result_of. split; [|split].
  - intros objects v Hv.
    pose proof (query_objects_eq objects default w) as Heq. cbn zeta in Heq.
    change STATUS_ENDPOINT with "objects/query" in Heq. rewrite Heq, Hv. cbn [fst].
    split.
    + intros d status -> Hstatus. now rewrite (unwrap_present _ _ _ Hstatus).
    + intros Hnot. now rewrite (unwrap_absent _ _ Hnot).
  - intros v Hv.
    pose proof (get_object_list_eq default w) as Heq. cbn zeta in Heq.
    change OBJ_LIST_ENDPOINT with "objects/list" in Heq. rewrite Heq, Hv. cbn [fst].
    split.
    + intros d objs -> Hobjs. now rewrite (unwrap_present _ _ _ Hobjs).
    + intros Hnot. now rewrite (unwrap_absent _ _ Hnot).
  - intros Hv.
    pose proof (query_objects_eq toolhead_position default w) as Heq. cbn zeta in Heq.
    change STATUS_ENDPOINT with "objects/query" in Heq.
    replace (value_of_subscription toolhead_position)
      with (VDict {[ "toolhead" := VList [VStr "position"] ]}) in Heq
      by (unfold value_of_subscription, toolhead_position;
          now rewrite map_fmap_singleton).
    rewrite Heq, Hv. cbn [fst]. f_equal.
Qed.

(** ** Restart *)

Lemma do_restart_eq gc w :
  let req := mkWebRequest GCODE_ENDPOINT {[ "script" := VStr gc ]} in
  do_restart gc w
  = (match klippy_request (trace w ++ [EffWaitStarted]) req with
     | Result v => Returns v
     | Raises e =>
         if is_server_error e && String.eqb (exn_str e) "Klippy Disconnected"
         then Returns (VStr "ok") else Raised e
     end,
     log (EffRequest req) (log EffWaitStarted w)).
Proof.
  intros req. unfold do_restart, wait_started, run_gcode, bind, modify, ret,
    try_except_server_error, raise.
  rewrite send_klippy_request_eq. fold req. cbn [trace log].
  destruct (klippy_request (trace w ++ [EffWaitStarted]) req) as [v|e];
    [reflexivity|].
  cbn [is_sentinel SENTINEL negb]. rewrite andb_false_r.
  destruct (is_server_error e); [|reflexivity].
  cbn [andb]. destruct (String.eqb (exn_str e) "Klippy Disconnected"); reflexivity.
Qed.

(** C7. [do_restart gc], for [RESTART], [FIRMWARE_RESTART] or any other
    script: when the request raises the server's error whose text is
    [Klippy Disconnected], the call returns ["ok"]; when it raises anything
    else, the call raises the same. *)
Theorem do_restart_disconnected_is_ok gc w e :
  klippy_request (trace w ++ [EffWaitStarted])
    (mkWebRequest "gcode/script" {[ "script" := VStr gc ]}) = Raises e ->
  (forall code, e = ServerError "Klippy Disconnected" code ->
     result_of (do_restart gc) w = Returns (VStr "ok"))
  /\ ((forall code, e <> ServerError "Klippy Disconnected" code) ->
     result_of (do_restart gc) w = Raised e).
Proof.
  intros Hreply. unfold result_of.
  pose proof (do_restart_eq gc w) as Heq. cbn zeta in Heq.
  change GCODE_ENDPOINT with "gcode/script" in Heq. rewrite Heq, Hreply.
  cbn [fst]. split.
  - intros code ->. reflexivity.
  - intros Hother. destruct e as [msg code| | |]; try reflexivity.
    cbn [is_server_error exn_str andb].
    destruct (String.eqb_spec msg "Klippy Disconnected") as [->|Hne];
      [|reflexivity].
    now destruct (Hother code).
Qed.

(** ** Starting a print *)

Lemma normalize_filename_world filename w :
  snd (normalize_filename filename w) = w.
Proof. destruct filename; reflexivity. Qed.

Lemma normalize_filename_nonempty filename w :
  filename <> EmptyString ->
  exists fn, normalize_filename filename w = (Returns fn, w).
Proof. destruct filename as [|c rest]; [done|]. intros _. eexists. reflexivity. Qed.

(** C9. [start_print] with the empty string as file name raises
    [IndexError] at [filename[0]], with nothing done before: the world is
    unchanged (no staging, no request); the handler lets the error pass.
    For every other file name the normalization returns a name. *)
Theorem start_print_empty_filename :
  (forall w, start_print "" w = (Raised IndexError, w))
  /\ (forall w, _gcode_start_print "" w = (Raised IndexError, w))
  /\ (forall filename w, filename <> "" ->
        exists fn, normalize_filename filename w = (Returns fn, w)).
Proof.
  split; [reflexivity|]. split; [reflexivity|].
  intros filename w. apply normalize_filename_nonempty.
Qed.

Lemma start_print_cached_eq filename fn w :
  result_of (normalize_filename filename) w = Returns fn ->
  first_dir_segment fn = ".cache" ->
  let req := mkWebRequest GCODE_ENDPOINT
               {[ "script" := VStr (sdcard_print_script fn) ]} in
  start_print filename w
  = (match klippy_request (trace w ++ [EffWaitStarted]) req with
     | Result v => Returns v
     | Raises e => Raised e
     end,
     log (EffRequest req) (log EffWaitStarted w)).
Proof.
  intros Hnorm Hseg req. unfold result_of in Hnorm.
  pose proof (normalize_filename_world filename w) as Hw.
  destruct (normalize_filename filename w) as [r w0] eqn:E.
  cbn in Hnorm, Hw. subst r w0.
  unfold start_print. unfold bind at 1. rewrite E.
  rewrite Hseg. cbn [String.eqb Ascii.eqb Bool.eqb andb negb].
  unfold wait_started, modify, run_gcode, bind, ret.
  rewrite send_klippy_request_eq. fold req. cbn [trace log].
  destruct (klippy_request (trace w ++ [EffWaitStarted]) req) as [v|e];
    [reflexivity|].
  cbn [is_sentinel SENTINEL negb]. now rewrite andb_false_r.
Qed.

(** A reference that begins with [.cache/]: the directory part starts with
    the segment [.cache]. *)

Lemma str_rfind_from_ge c s i found :
  found <= i -> found <= str_rfind_from c s i found.
Proof.
  revert i found. induction s as [|a s IH]; intros i found Hle; cbn; [lia|].
  destruct (Ascii.eqb a c).
  - transitivity i; [exact Hle|]. apply IH. lia.
  - apply IH. lia.
Qed.

Lemma str_rstrip_cons_ne c a s :
  Ascii.eqb a c = false ->
  str_rstrip c (String a s) = String a (str_rstrip c s).
Proof. intros Hne. cbn. rewrite Hne. now destruct (str_rstrip c s). Qed.

Lemma str_split_hd_cons_ne c a s :
  Ascii.eqb a c = false ->
  hd EmptyString (str_split c (String a s))
  = String a (hd EmptyString (str_split c s)).
Proof. intros Hne. cbn. rewrite Hne. now destruct (str_split c s). Qed.

Lemma str_split_hd_rstrip_sep c s :
  hd EmptyString (str_split c (str_rstrip c (String c s))) = EmptyString.
Proof.
  cbn. rewrite Ascii.eqb_refl.
  destruct (str_rstrip c s); cbn; [reflexivity|]. now rewrite Ascii.eqb_refl.
Qed.

Lemma first_dir_segment_cache rest :
  first_dir_segment (".cache/" +:+ rest) = ".cache".
Proof.
  unfold first_dir_segment, os_path_split, str_upto, str_rfind.
  change (str_rfind_from sep (".cache/" +:+ rest) 0 (-1))
    with (str_rfind_from sep rest 7 6).
  pose proof (str_rfind_from_ge sep rest 7 6 ltac:(lia)) as Hge.
  destruct (Z.to_nat (str_rfind_from sep rest 7 6 + 1)) as [|n] eqn:En; [lia|].
  do 6 (destruct n as [|n]; [lia|]). clear En Hge.
  change (substring 0 (S (S (S (S (S (S (S n))))))) (".cache/" +:+ rest))
    with (String "." (String "c" (String "a" (String "c" (String "h"
           (String "e" (String "/" (substring 0 n rest)))))))).
  cbn [fst String.eqb String.length str_repeat Ascii.eqb Bool.eqb sep andb negb].
  rewrite !str_rstrip_cons_ne by reflexivity.
  rewrite !str_split_hd_cons_ne by reflexivity.
  now rewrite (str_split_hd_rstrip_sep "/").
Qed.

(** C6, as the code has it. When the directory part of the normalized file
    name (the text before its last separator) has [.cache] as its first
    segment, which is so for every name that begins with [.cache/],
    [start_print] skips the staging: it waits for Klippy, sends the script
    with the normalized name, and does nothing else; the file system is as
    it was and no event is announced. *)
Theorem start_print_skips_staging filename fn w :
  result_of (normalize_filename filename) w = Returns fn ->
  first_dir_segment fn = ".cache" ->
  let script :=
    "SDCARD_PRINT_FILE FILENAME=" +:+ String dquote (fn +:+ String dquote "") in
  let req := mkWebRequest "gcode/script" {[ "script" := VStr script ]} in
  let w' := world_after (start_print filename) w in
  trace w' = (trace w ++ [EffWaitStarted; EffRequest req])%list
  /\ fs_nodes w' = fs_nodes w
  /\ host_subscription w' = host_subscription w
  /\ result_of (start_print filename) w
     = match klippy_request (trace w ++ [EffWaitStarted]) req with
       | Result v => Returns v
       | Raises e => Raised e
       end
  /\ forall rest, first_dir_segment (".cache/" +:+ rest) = ".cache".
Proof.
  intros Hnorm Hseg script req w'. subst w'. unfold world_after, result_of.
  pose proof (start_print_cached_eq filename fn w Hnorm Hseg) as Heq.
  cbn zeta in Heq. rewrite Heq. cbn [fst snd trace log fs_nodes host_subscription].
  split; [now rewrite <- app_assoc|].
  split; [reflexivity|]. split; [reflexivity|]. split; [reflexivity|].
  apply first_dir_segment_cache.
Qed.

(** ** Staging a file *)





(** * Further properties *)

(** ** The request bridge and the plain commands *)

(** X1. A default replaces the server's error only: when the connection
    raises any other exception, [_send_klippy_request] raises it whatever
    the default; and when the connection delivers a result, the default
    plays no part. *)
Theorem send_klippy_request_default_is_for_server_errors method params default w :
  (forall e,
     klippy_request (trace w) (mkWebRequest method params) = Raises e ->
     is_server_error e = false ->
     result_of (_send_klippy_request method params default) w = Raised e)
  /\ (forall v,
     klippy_request (trace w) (mkWebRequest method params) = Result v ->
     result_of (_send_klippy_request method params default) w = Returns v).
Proof.
  unfold result_of. rewrite send_klippy_request_eq. split.
  - intros e -> ->. reflexivity.
  - intros v ->. reflexivity.
Qed.

Lemma announce_then_send_eq name method default w :
  (send_event name None ;; _send_klippy_request method ∅ default) w
  = _send_klippy_request method ∅ default (log (EffSendEvent name None) w).
Proof. reflexivity. Qed.

(** X2. [pause_print], [resume_print] and [cancel_print] announce their
    event first and then send one request with empty parameters, whatever
    the default and whatever becomes of the request: the event is announced
    also when the request fails. *)
Theorem print_control_announces_before_sending default w :
  trace (world_after (pause_print default) w)
  = (trace w ++ [EffSendEvent "klippy_apis:pause_requested" None;
                 EffRequest (mkWebRequest "pause_resume/pause" ∅)])%list
  /\ trace (world_after (resume_print default) w)
     = (trace w ++ [EffSendEvent "klippy_apis:resume_requested" None;
                    EffRequest (mkWebRequest "pause_resume/resume" ∅)])%list
  /\ trace (world_after (cancel_print default) w)
     = (trace w ++ [EffSendEvent "klippy_apis:cancel_requested" None;
                    EffRequest (mkWebRequest "pause_resume/cancel" ∅)])%list.
Proof.
  unfold world_after, pause_print, resume_print, cancel_print.
  rewrite !announce_then_send_eq, !send_klippy_request_eq.
  cbn [snd trace log]. now rewrite <- !app_assoc.
Qed.

(** X3. [emergency_stop], [subscribe_gcode_output] and [register_method]
    pass no default: whatever exception the connection raises for their
    request, the server's error included, they raise. *)
Theorem commands_without_default_raise e w :
  (klippy_request (trace w) (mkWebRequest "emergency_stop" ∅) = Raises e ->
   result_of emergency_stop w = Raised e)
  /\ (klippy_request (trace w)
        (mkWebRequest "gcode/subscribe_output"
           {[ "response_template" :=
                VDict {[ "method" := VStr "process_gcode_response" ]} ]})
      = Raises e ->
      result_of subscribe_gcode_output w = Raised e)
  /\ (forall method_name,
      klippy_request (trace w)
        (mkWebRequest "register_remote_method"
           (<[ "response_template" := VDict {[ "method" := VStr method_name ]} ]>
              {[ "remote_method" := VStr method_name ]}))
      = Raises e ->
      result_of (register_method method_name) w = Raised e).
Proof.
  unfold result_of, emergency_stop, subscribe_gcode_output, register_method.
  rewrite !send_klippy_request_eq. cbn [fst].
  change ESTOP_ENDPOINT with "emergency_stop".
  change GC_OUTPUT_ENDPOINT with "gcode/subscribe_output".
  split; [|split].
  - intros ->. now rewrite andb_false_r.
  - intros ->. now rewrite andb_false_r.
  - intros method_name. rewrite send_klippy_request_eq. cbn [fst].
    change REG_METHOD_ENDPOINT with "register_remote_method".
    intros ->. now rewrite andb_false_r.
Qed.

(** X4. The handlers of the print commands call with the sentinel: when the
    connection raises for the request that follows the announcement, the
    handler raises the same, and the announcement stays made. *)
Theorem print_handlers_raise e w :
  (klippy_request (trace w ++ [EffSendEvent "klippy_apis:pause_requested" None])
     (mkWebRequest "pause_resume/pause" ∅) = Raises e ->
   result_of _gcode_pause w = Raised e
   /\ In (EffSendEvent "klippy_apis:pause_requested" None)
         (trace (world_after _gcode_pause w)))
  /\ (klippy_request (trace w ++ [EffSendEvent "klippy_apis:resume_requested" None])
        (mkWebRequest "pause_resume/resume" ∅) = Raises e ->
      result_of _gcode_resume w = Raised e
      /\ In (EffSendEvent "klippy_apis:resume_requested" None)
            (trace (world_after _gcode_resume w)))
  /\ (klippy_request (trace w ++ [EffSendEvent "klippy_apis:cancel_requested" None])
        (mkWebRequest "pause_resume/cancel" ∅) = Raises e ->
      result_of _gcode_cancel w = Raised e
      /\ In (EffSendEvent "klippy_apis:cancel_requested" None)
            (trace (world_after _gcode_cancel w))).
Proof.
  unfold result_of, world_after, _gcode_pause, _gcode_resume, _gcode_cancel,
    pause_print, resume_print, cancel_print.
  rewrite !announce_then_send_eq, !send_klippy_request_eq.
  cbn [fst snd trace log].
  split; [|split]; intros ->; (split; [now rewrite andb_false_r|]);
    apply in_or_app; left; apply in_or_app; right; now left.
Qed.

(** X5. The fallback is unwrapped like a reply: when the request fails with
    the server's error and the default is a dictionary that holds the key,
    [query_objects] and [subscribe_objects] return its [status] entry and
    [get_object_list] its [objects] entry, not the default itself. *)
Theorem fallback_is_unwrapped objects d x e w :
  is_server_error e = true ->
  (klippy_request (trace w)
     (mkWebRequest "objects/query" {[ "objects" := value_of_subscription objects ]})
   = Raises e ->
   d !! "status" = Some x ->
   result_of (query_objects objects (VDict d)) w = Returns x)
  /\ (klippy_request (trace w) (mkWebRequest "objects/list" ∅) = Raises e ->
      d !! "objects" = Some x ->
      result_of (get_object_list (VDict d)) w = Returns x)
  /\ (klippy_request (trace w)
        (mkWebRequest "objects/subscribe"
           {[ "objects" :=
                value_of_subscription
                  (merge_subscription objects (host_subscription w)) ]})
      = Raises e ->
      d !! "status" = Some x ->
      result_of (subscribe_objects objects (VDict d)) w = Returns x).
Proof.
  intros He. unfold result_of.
  pose proof (query_objects_eq objects (VDict d) w) as Hq.
  pose proof (get_object_list_eq (VDict d) w) as Hl.
  pose proof (subscribe_objects_eq objects (VDict d) w) as Hs.
  cbn zeta in Hq, Hl, Hs. rewrite Hq, Hl, Hs. cbn [fst].
  change STATUS_ENDPOINT with "objects/query".
  change OBJ_LIST_ENDPOINT with "objects/list".
  change SUBSCRIPTION_ENDPOINT with "objects/subscribe".
  split; [|split]; intros -> Hx; rewrite He; cbn [is_sentinel negb andb];
    now rewrite (unwrap_present _ _ _ Hx).
Qed.

(** ** The subscription registry, further *)

Lemma subscribe_objects_lookup objects default w obj :
  host_subscription (world_after (subscribe_objects objects default) w) !! obj
  = match objects !! obj with
    | Some items => Some (merge_entry (host_subscription w !! obj) items)
    | None => host_subscription w !! obj
    end.
Proof. rewrite subscribe_objects_registry. apply merge_subscription_lookup. Qed.

(** X6. A call of [subscribe_objects] changes the entries of the requested
    objects only: an object it does not name keeps its entry, and an object
    the registry did not hold gets the requested item as it is. *)
Theorem subscribe_objects_touches_requested_only objects default w obj :
  (objects !! obj = None ->
   host_subscription (world_after (subscribe_objects objects default) w) !! obj
   = host_subscription w !! obj)
  /\ (forall items,
      objects !! obj = Some items ->
      host_subscription w !! obj = None ->
      host_subscription (world_after (subscribe_objects objects default) w) !! obj
      = Some items).
Proof.
  rewrite subscribe_objects_lookup. split.
  - intros ->. reflexivity.
  - intros items -> ->. reflexivity.
Qed.

(** X7. A request for all fields of an object wins: after a call that maps
    the object to [None], the registry maps it to [None], whatever it held
    for the object before. *)
Theorem all_fields_request_wins objects default w obj :
  objects !! obj = Some None ->
  host_subscription (world_after (subscribe_objects objects default) w) !! obj
  = Some None.
Proof.
  intros Hall. rewrite subscribe_objects_lookup, Hall.
  now destruct (host_subscription w !! obj) as [[prev|]|].
Qed.

(** X8. When the registry holds a list for an object and a call supplies a
    list for it, the new entry is a list without repetitions that holds
    exactly the fields of the two. *)
Theorem merged_fields_are_deduplicated_union objects default w obj prev items :
  host_subscription w !! obj = Some (Some prev) ->
  objects !! obj = Some (Some items) ->
  exists fields,
    host_subscription (world_after (subscribe_objects objects default) w) !! obj
    = Some (Some fields)
    /\ NoDup fields
    /\ forall f, f ∈ fields <-> f ∈ prev \/ f ∈ items.
Proof using list_of_set_elements.
  intros Hprev Hitems. rewrite subscribe_objects_lookup, Hitems, Hprev.
  eexists. split; [reflexivity|]. split; [apply list_of_set_NoDup|].
  intros f. rewrite <- (elem_of_list_to_set (C:=gset string)), list_of_set_to_set.
  rewrite elem_of_union, !elem_of_list_to_set. reflexivity.
Qed.

Lemma subscribe_objects_entry_grows objects default w obj entry :
  host_subscription w !! obj = Some entry ->
  host_subscription (world_after (subscribe_objects objects default) w) !! obj
    = Some None
  \/ exists prev fields,
       entry = Some prev
       /\ host_subscription (world_after (subscribe_objects objects default) w) !! obj
          = Some (Some fields)
       /\ forall f, f ∈ prev -> f ∈ fields.
Proof using list_of_set_elements.
  intros Hentry. rewrite subscribe_objects_lookup, Hentry.
  destruct (objects !! obj) as [[items|]|]; destruct entry as [prev|]; cbn;
    try (now left).
  - right. exists prev, (list_of_set (list_to_set prev ∪ list_to_set items)).
    split; [reflexivity|]. split; [reflexivity|].
    intros f Hf. rewrite <- (elem_of_list_to_set (C:=gset string)), list_of_set_to_set.
    apply elem_of_union. left. now apply elem_of_list_to_set.
  - right. exists prev, prev. now repeat split.
Qed.

Lemma subscribe_all_keeps_all_fields obj calls w :
  host_subscription w !! obj = Some None ->
  host_subscription (subscribe_all calls w) !! obj = Some None.
Proof.
  revert w. induction calls as [|[objects default] calls IH]; intros w Hall;
    [exact Hall|].
  rewrite subscribe_all_cons. apply IH. cbn [fst snd].
  rewrite subscribe_objects_lookup, Hall. now destruct (objects !! obj).
Qed.

(** X9. Nothing subscribed is lost: through any sequence of calls, however
    they end, an object of the registry stays in the registry, and if it
    had a list of fields and still has a list, every field of the old list
    is in the new one. *)
Theorem subscriptions_are_never_lost calls w obj :
  (is_Some (host_subscription w !! obj) ->
   is_Some (host_subscription (subscribe_all calls w) !! obj))
  /\ (forall prev fields,
      host_subscription w !! obj = Some (Some prev) ->
      host_subscription (subscribe_all calls w) !! obj = Some (Some fields) ->
      forall f, f ∈ prev -> f ∈ fields).
Proof using list_of_set_elements.
  revert w. induction calls as [|[objects default] calls IH]; intros w.
  - split; [exact (fun H => H)|]. intros prev fields Hprev Hfields f Hf.
    cbn in Hfields. rewrite Hprev in Hfields. injection Hfields as <-. exact Hf.
  - rewrite subscribe_all_cons. cbn [fst snd].
    destruct (IH (world_after (subscribe_objects objects default) w)) as [IHdom IHfields].
    split.
    + intros [entry Hentry]. apply IHdom.
      destruct (subscribe_objects_entry_grows objects default w obj entry Hentry)
        as [Hall|(prev & fields & _ & Hf & _)]; [rewrite Hall|rewrite Hf];
        exact (ex_intro _ _ eq_refl).
    + intros prev fields Hprev Hfields f Hf.
      destruct (subscribe_objects_entry_grows objects default w obj _ Hprev)
        as [Hall|(prev' & mid & Heq & Hmid & Hsub)].
      * rewrite (subscribe_all_keeps_all_fields obj calls _ Hall) in Hfields.
        discriminate.
      * injection Heq as <-. apply (IHfields mid fields Hmid Hfields). now apply Hsub.
Qed.

(** X10. The order in which [objects.items()] yields the requested objects
    does not matter: the loop run over any arrangement of the items of
    [objects] gives the same registry. *)
Theorem items_order_is_irrelevant objects hs (items : list (string * option (list string))) :
  items ≡ₚ map_to_list objects ->
  merge_items items hs = merge_subscription objects hs.
Proof.
  intros Hperm. unfold merge_subscription. symmetry.
  apply merge_items_permutation; [apply NoDup_fst_map_to_list|now symmetry].
Qed.

Lemma merge_entry_again prev items :
  entry_fields (Some (merge_entry (Some (merge_entry prev items)) items))
  = entry_fields (Some (merge_entry prev items)).
Proof using list_of_set_elements.
  destruct prev as [[prev|]|]; destruct items as [items|]; cbn; try reflexivity.
  - do 2 f_equal. rewrite !list_of_set_to_set.
    now rewrite <- (assoc_L (∪)), (idemp_L (∪)).
  - do 2 f_equal. rewrite list_of_set_to_set. apply (idemp_L (∪)).
Qed.

(** X11. Subscribing again to the same objects changes nothing that is
    subscribed: after the second call every object stands for the same
    fields (all, or the same set) as after the first. *)
Theorem subscribing_again_changes_no_fields objects default default' w obj :
  let w1 := world_after (subscribe_objects objects default) w in
  let w2 := world_after (subscribe_objects objects default') w1 in
  entry_fields (host_subscription w2 !! obj)
  = entry_fields (host_subscription w1 !! obj).
Proof using list_of_set_elements.
  intros w1 w2. subst w1 w2. rewrite !subscribe_objects_lookup.
  destruct (objects !! obj) as [items|]; [|reflexivity].
  apply merge_entry_again.
Qed.

(** ** File names *)

Lemma append_cons a s t : String a s +:+ t = String a (s +:+ t).
Proof. reflexivity. Qed.

Lemma append_nil t : EmptyString +:+ t = t.
Proof. reflexivity. Qed.

Lemma str_rfind_from_last_pos c s i found :
  str_rfind_from c s i found
  = match last_pos c s with
    | Some k => i + Z.of_nat k
    | None => found
    end.
Proof.
  revert i found. induction s as [|a s IH]; intros i found; cbn; [reflexivity|].
  rewrite IH. destruct (last_pos c s) as [k|]; [lia|].
  destruct (Ascii.eqb a c); [lia|reflexivity].
Qed.

Lemma str_rfind_last_pos c s :
  str_rfind c s = match last_pos c s with Some k => Z.of_nat k | None => -1 end.
Proof.
  unfold str_rfind. rewrite str_rfind_from_last_pos.
  now destruct (last_pos c s).
Qed.

Lemma str_rfind_absent c s : str_rfind c s = -1 <-> last_pos c s = None.
Proof.
  rewrite str_rfind_last_pos. destruct (last_pos c s); split; (lia || congruence).
Qed.

(** The string cut at the last occurrence of [c]. *)
Lemma last_pos_split c s k :
  last_pos c s = Some k ->
  exists pre post,
    s = pre +:+ String c post /\ String.length pre = k /\ last_pos c post = None.
Proof.
  revert k. induction s as [|a s IH]; intros k; cbn; [discriminate|].
  destruct (last_pos c s) as [k'|] eqn:E.
  - intros [= <-]. destruct (IH k' eq_refl) as (pre & post & -> & Hlen & Hpost).
    exists (String a pre), post. rewrite append_cons. cbn. now rewrite Hlen.
  - destruct (Ascii.eqb_spec a c) as [->|]; [|discriminate].
    intros [= <-]. now exists EmptyString, s.
Qed.

Lemma substring_whole s : substring 0 (String.length s) s = s.
Proof. induction s as [|a s IH]; cbn; [reflexivity|now rewrite IH]. Qed.

Lemma str_upto_app pre c post :
  str_upto (Z.of_nat (String.length pre) + 1) (pre +:+ String c post)
  = pre +:+ String c EmptyString.
Proof.
  unfold str_upto. replace (Z.to_nat (Z.of_nat (String.length pre) + 1))
    with (S (String.length pre)) by lia.
  induction pre as [|a pre IH].
  - rewrite !append_nil. cbn. now destruct post.
  - rewrite !append_cons. cbn [String.length substring]. now rewrite IH.
Qed.

Lemma str_from_app pre c post :
  str_from (Z.of_nat (String.length pre) + 1) (pre +:+ String c post) = post.
Proof.
  unfold str_from. replace (Z.to_nat (Z.of_nat (String.length pre) + 1))
    with (S (String.length pre)) by lia.
  induction pre as [|a pre IH].
  - rewrite append_nil. cbn [String.length substring Nat.sub].
    rewrite Nat.sub_0_r. apply substring_whole.
  - rewrite append_cons. cbn [String.length substring Nat.sub]. exact IH.
Qed.

(** The first piece of [s.split(sep)], letter by letter. *)
Lemma first_piece_cons c a s :
  hd EmptyString (str_split c (String a s))
  = if Ascii.eqb a c then EmptyString
    else String a (hd EmptyString (str_split c s)).
Proof. cbn. destruct (Ascii.eqb a c); [reflexivity|]. now destruct (str_split c s). Qed.

Lemma first_piece_rstrip c pre post :
  hd EmptyString (str_split c (str_rstrip c (pre +:+ String c EmptyString)))
  = hd EmptyString (str_split c (pre +:+ String c post)).
Proof.
  induction pre as [|a pre IH].
  - change (EmptyString +:+ String c EmptyString) with (String c EmptyString).
    change (EmptyString +:+ String c post) with (String c post).
    rewrite str_split_hd_rstrip_sep, first_piece_cons. now rewrite Ascii.eqb_refl.
  - change (String a pre +:+ ?t) with (String a (pre +:+ t)).
    rewrite (first_piece_cons c a (pre +:+ String c post)).
    destruct (Ascii.eqb a c) eqn:Ea.
    + apply Ascii.eqb_eq in Ea as ->. apply str_split_hd_rstrip_sep.
    + rewrite (str_rstrip_cons_ne c a _ Ea), first_piece_cons, Ea. now rewrite IH.
Qed.

Lemma first_dir_segment_eq filename :
  first_dir_segment filename
  = if str_rfind sep filename =? -1 then EmptyString
    else hd EmptyString (str_split sep filename).
Proof.
  unfold first_dir_segment, os_path_split. rewrite str_rfind_last_pos.
  destruct (last_pos sep filename) as [k|] eqn:E.
  - replace (Z.of_nat k =? -1) with false by (symmetry; apply Z.eqb_neq; lia).
    destruct (last_pos_split sep filename k E) as (pre & post & -> & <- & _).
    rewrite str_upto_app. cbn [fst].
    destruct pre as [|a pre]; [reflexivity|].
    change (String a pre +:+ ?t) with (String a (pre +:+ t)).
    rewrite (first_piece_cons sep a (pre +:+ String sep post)).
    destruct (Ascii.eqb a sep) eqn:Ea.
    + apply Ascii.eqb_eq in Ea as ->.
      destruct (negb _ && negb _); [apply str_split_hd_rstrip_sep|].
      now rewrite first_piece_cons, Ascii.eqb_refl.
    + cbn [String.eqb String.length str_repeat negb andb]. rewrite Ea. cbn [andb negb].
      rewrite (str_rstrip_cons_ne sep a _ Ea), first_piece_cons, Ea.
      now rewrite (first_piece_rstrip sep pre post).
  - unfold str_upto. now destruct filename.
Qed.

Lemma first_dir_segment_is_cache_iff filename :
  first_dir_segment filename = ".cache"
  <-> str_startswith ".cache/" filename = true.
Proof.
  split.
  - rewrite first_dir_segment_eq. destruct (str_rfind sep filename =? -1) eqn:E;
      [discriminate|].
    apply Z.eqb_neq in E. intros Hseg.
    do 6 (destruct filename as [|? filename];
          [cbn in Hseg; discriminate|
           rewrite first_piece_cons in Hseg;
           match type of Hseg with
           | (if ?b then _ else _) = _ =>
               destruct b eqn:?; [discriminate|]
           end;
           injection Hseg as -> Hseg]).
    destruct filename as [|a filename]; [now destruct E|].
    rewrite first_piece_cons in Hseg.
    destruct (Ascii.eqb_spec a sep) as [->|]; [|discriminate].
    apply prefix_correct. cbn. now destruct filename.
  - intros Hprefix. unfold str_startswith in Hprefix.
    do 7 (destruct filename as [|? filename]; [discriminate|];
          cbn [String.prefix] in Hprefix;
          match type of Hprefix with
          | (if ?d then _ else _) = true =>
              destruct d as [<-|]; [|discriminate]
          end).
    apply (first_dir_segment_cache filename).
Qed.

(** X12. The test of [start_print] reads the first segment of the file name
    when the name holds a separator, and the empty string when it holds
    none; so the staging is skipped for exactly the names that begin with
    [.cache/]. *)
Theorem staging_is_skipped_for_cache_prefix_only filename :
  first_dir_segment filename
  = (if str_rfind sep filename =? -1 then EmptyString
     else hd EmptyString (str_split sep filename))
  /\ (first_dir_segment filename = ".cache"
      <-> str_startswith ".cache/" filename = true).
Proof.
  split; [apply first_dir_segment_eq|apply first_dir_segment_is_cache_iff].
Qed.

(** [os.path.basename] holds no separator. *)
Lemma os_path_basename_no_sep p : last_pos sep (os_path_basename p) = None.
Proof.
  unfold os_path_basename. rewrite str_rfind_last_pos.
  destruct (last_pos sep p) as [k|] eqn:E.
  - destruct (last_pos_split sep p k E) as (pre & post & -> & <- & Hpost).
    now rewrite str_from_app.
  - unfold str_from. cbn. rewrite Nat.sub_0_r, substring_whole. exact E.
Qed.

Lemma quotes_escaped_replace after s :
  quotes_escaped_from after
    (str_replace dquote (String backslash (String dquote EmptyString)) s) = true.
Proof.
  revert after. induction s as [|c s IH]; intros after; [reflexivity|].
  cbn [str_replace]. destruct (Ascii.eqb c dquote) eqn:Ec.
  - change (String backslash (String dquote EmptyString) +:+ ?t)
      with (String backslash (String dquote t)).
    cbn. apply IH.
  - cbn [quotes_escaped_from]. rewrite Ec. apply IH.
Qed.

Lemma str_replace_absent old new s :
  last_pos old s = None -> str_replace old new s = s.
Proof.
  induction s as [|c s IH]; cbn; [reflexivity|].
  destruct (last_pos old s); [discriminate|].
  destruct (Ascii.eqb c old); [discriminate|]. intros _. now rewrite IH.
Qed.

Lemma str_startswith_char a c rest :
  str_startswith (String a EmptyString) (String c rest) = Ascii.eqb c a.
Proof.
  unfold str_startswith. cbn [String.prefix].
  destruct (ascii_dec a c) as [->|Hne].
  - rewrite Ascii.eqb_refl. now destruct rest.
  - symmetry. apply Ascii.eqb_neq. congruence.
Qed.

(** The normalized name: every double quote escaped; and a name without
    double quotes is itself, but for one leading separator. *)
Lemma normalize_filename_escapes filename fn w :
  result_of (normalize_filename filename) w = Returns fn ->
  quotes_escaped fn = true
  /\ (str_rfind dquote filename = -1 ->
      fn = (if str_startswith "/" filename then str_tail filename else filename)).
Proof.
  destruct filename as [|c rest]; [discriminate|].
  unfold result_of. cbn [normalize_filename ret fst]. intros [= <-]. split.
  - apply quotes_escaped_replace.
  - intros Hno. apply str_rfind_absent in Hno.
    rewrite (str_startswith_char "/" c rest). cbn [str_tail]. unfold sep.
    assert (last_pos dquote rest = None) as Hrest.
    { cbn in Hno. now destruct (last_pos dquote rest). }
    destruct (Ascii.eqb c "/"); now apply str_replace_absent.
Qed.

(** ** Strings joined and cut *)



Lemma prefix_nil s : String.prefix EmptyString s = true.
Proof. now destruct s. Qed.

Lemma prefix_cons a s b t :
  String.prefix (String a s) (String b t) = Ascii.eqb a b && String.prefix s t.
Proof.
  cbn [String.prefix]. destruct (ascii_dec a b) as [->|Hne].
  - now rewrite Ascii.eqb_refl.
  - apply Ascii.eqb_neq in Hne. now rewrite Hne.
Qed.


Lemma prefix_app_r p t : String.prefix p (p +:+ t) = true.
Proof.
  induction p as [|a p IH]; [apply prefix_nil|].
  rewrite append_cons, prefix_cons, Ascii.eqb_refl. exact IH.
Qed.







(** [os.path.join(a, b)] for a relative [b] and an [a] that does not end
    with a separator. *)
Lemma os_path_join_relative a b :
  a <> EmptyString -> str_endswith sep a = false ->
  str_startswith "/" b = false ->
  os_path_join a b = a +:+ String sep b.
Proof.
  intros Ha Hend Hb. unfold os_path_join.
  change (String sep EmptyString) with "/". rewrite Hb, Hend.
  destruct a; [done|reflexivity].
Qed.

Lemma no_sep_is_relative name :
  last_pos sep name = None -> str_startswith "/" name = false.
Proof.
  destruct name as [|c name]; [reflexivity|].
  rewrite (str_startswith_char "/" c name). cbn.
  destruct (last_pos sep name); [discriminate|].
  unfold sep. now destruct (Ascii.eqb c "/").
Qed.


(** ** The file system *)

Lemma bind_returns {A B} (m : M A) (k : A -> M B) w a w' :
  m w = (Returns a, w') -> bind m k w = k a w'.
Proof. intros H. unfold bind. now rewrite H. Qed.

Lemma bind_raises {A B} (m : M A) (k : A -> M B) w e w' :
  m w = (Raised e, w') -> bind m k w = (Raised e, w').
Proof. intros H. unfold bind. now rewrite H. Qed.















(** ** Staging *)

Lemma start_print_eq filename :
  start_print filename
  = (let* filename := normalize_filename filename in
     let* filename :=
       if negb (String.eqb (first_dir_segment filename) ".cache")
       then stage_job filename else ret filename in
     wait_started ;; run_gcode (sdcard_print_script filename) SENTINEL).
Proof. reflexivity. Qed.

Lemma wait_then_run_gcode_eq script w :
  (wait_started ;; run_gcode script SENTINEL) w
  = (match klippy_request (trace w ++ [EffWaitStarted])
             (mkWebRequest "gcode/script" {[ "script" := VStr script ]}) with
     | Result v => Returns v
     | Raises e => Raised e
     end,
     log (EffRequest (mkWebRequest "gcode/script" {[ "script" := VStr script ]}))
         (log EffWaitStarted w)).
Proof.
  unfold wait_started, modify, run_gcode, bind, ret.
  rewrite send_klippy_request_eq. cbn [trace log].
  change GCODE_ENDPOINT with "gcode/script".
  destruct (klippy_request _ _) as [v|e]; [reflexivity|].
  cbn [is_sentinel SENTINEL negb]. now rewrite andb_false_r.
Qed.





Lemma shutil_copy_elsewhere origin target w k :
  (k <> os_path_resolve
          (if is_dir (fs_nodes w) target
           then os_path_join target (os_path_basename origin) else target) ->
   fs_nodes (snd (shutil_copy origin target w)) !! k = fs_nodes w !! k)
  /\ host_subscription (snd (shutil_copy origin target w)) = host_subscription w.
Proof.
  unfold shutil_copy. cbn zeta.
  generalize (if is_dir (fs_nodes w) target
              then os_path_join target (os_path_basename origin) else target).
  intros dst. split_cases; cbn [snd fs_nodes set_nodes host_subscription log];
    (split; [intros Hk; try reflexivity; now rewrite lookup_insert_ne by congruence
            |reflexivity]).
Qed.

(** X14. [copy_file_to_cache] writes at most one path, the destination of
    the copy as the operating system resolves it: every other path of the
    file system is after the call what it was before, however the call ends
    (refused, failed half way or done); and the registry is not touched. *)
Theorem copy_file_to_cache_writes_destination_only origin target w k :
  let dst := if is_dir (fs_nodes w) target
             then os_path_join target (os_path_basename origin) else target in
  let w' := world_after (copy_file_to_cache origin target) w in
  (k <> os_path_resolve dst -> fs_nodes w' !! k = fs_nodes w !! k)
  /\ host_subscription w' = host_subscription w.
Proof.
  intros dst w'. subst dst w'. unfold world_after, copy_file_to_cache, bind,
    os_path_getsize, send_event, modify, raise.
  destruct (stat_path (fs_nodes w) origin) as [e|[data|]];
    try (destruct (_ <? _));
    try (split; reflexivity);
    apply shutil_copy_elsewhere.
Qed.








(** ** What reaches Klippy *)

Lemma klippy_free_same {A} (m : M A) :
  (forall w, trace (snd (m w)) = trace w) -> klippy_free m.
Proof. intros H w. exists []. split; [now rewrite H, app_nil_r|reflexivity]. Qed.

Lemma klippy_free_one {A} (m : M A) eff :
  is_klippy_effect eff = false ->
  (forall w, trace (snd (m w)) = (trace w ++ [eff])%list) -> klippy_free m.
Proof.
  intros Heff H w. exists [eff]. split; [apply H|]. cbn. now rewrite Heff.
Qed.

Lemma klippy_free_bind {A B} (m : M A) (k : A -> M B) :
  klippy_free m -> (forall a, klippy_free (k a)) -> klippy_free (bind m k).
Proof.
  intros Hm Hk w. unfold bind. destruct (Hm w) as (es1 & Ht1 & Hq1).
  destruct (m w) as [[a|e] w1]; cbn [snd] in Ht1.
  - destruct (Hk a w1) as (es2 & Ht2 & Hq2). exists (es1 ++ es2)%list.
    split; [now rewrite Ht2, Ht1, app_assoc|].
    rewrite forallb_app, Hq1, Hq2. reflexivity.
  - exists es1. now split.
Qed.

Lemma klippy_free_os_makedirs path : klippy_free (os_makedirs path).
Proof.
  apply (klippy_free_one _ (EffMakedirs path)); [reflexivity|]. intros w.
  unfold os_makedirs. cbn zeta. split_cases; reflexivity.
Qed.

Lemma klippy_free_shutil_rmtree path : klippy_free (shutil_rmtree path).
Proof.
  apply (klippy_free_one _ (EffRmtree path)); [reflexivity|]. intros w.
  unfold shutil_rmtree. cbn zeta. split_cases; reflexivity.
Qed.

Lemma klippy_free_shutil_copy origin target : klippy_free (shutil_copy origin target).
Proof.
  apply (klippy_free_one _ (EffCopy origin target)); [reflexivity|]. intros w.
  unfold shutil_copy. cbn zeta.
  generalize (if is_dir (fs_nodes w) target
              then os_path_join target (os_path_basename origin) else target).
  intros dst. split_cases; reflexivity.
Qed.

Lemma klippy_free_send_event name arg : klippy_free (send_event name arg).
Proof. now apply (klippy_free_one _ (EffSendEvent name arg)). Qed.

Lemma klippy_free_copy_file_to_cache origin target :
  klippy_free (copy_file_to_cache origin target).
Proof.
  unfold copy_file_to_cache. apply klippy_free_bind; [now apply klippy_free_same|].
  intros stat. apply klippy_free_bind.
  - apply klippy_free_same. intros w. unfold os_path_getsize.
    now destruct (stat_path (fs_nodes w) origin) as [e|[data|]].
  - intros filesize. destruct (_ <? _); [apply klippy_free_shutil_copy|].
    apply klippy_free_bind; [apply klippy_free_send_event|].
    intros _. now apply klippy_free_same.
Qed.

Lemma klippy_free_stage_job fn : klippy_free (stage_job fn).
Proof.
  unfold stage_job. apply klippy_free_bind; [now apply klippy_free_same|].
  intros present. apply klippy_free_bind.
  { destruct (negb present); [apply klippy_free_os_makedirs|now apply klippy_free_same]. }
  intros _. apply klippy_free_bind; [apply klippy_free_shutil_rmtree|].
  intros _. apply klippy_free_bind; [apply klippy_free_os_makedirs|].
  intros _. apply klippy_free_bind; [apply klippy_free_copy_file_to_cache|].
  intros _. apply klippy_free_bind; [apply klippy_free_send_event|].
  intros _. now apply klippy_free_same.
Qed.

(** X18. Whatever the file name and the state of the disk, [start_print]
    turns to Klippy only at its end: either it raises before, and then
    Klippy was neither waited for nor sent anything, or its last two effects
    are the wait for Klippy and one [gcode/script] request, whose outcome is
    the outcome of the call. *)
Theorem start_print_turns_to_klippy_last filename w :
  let w' := world_after (start_print filename) w in
  exists es,
    forallb (fun e => negb (is_klippy_effect e)) es = true
    /\ ((trace w' = (trace w ++ es)%list
         /\ exists e, result_of (start_print filename) w = Raised e)
        \/ exists req,
             wr_method req = "gcode/script"
             /\ trace w' = (trace w ++ es ++ [EffWaitStarted; EffRequest req])%list
             /\ result_of (start_print filename) w
                = match klippy_request (trace w ++ es ++ [EffWaitStarted]) req with
                  | Result v => Returns v
                  | Raises e => Raised e
                  end).
Proof.
  intros w'. subst w'. unfold world_after, result_of. rewrite start_print_eq.
  pose proof (normalize_filename_world filename w) as Hw.
  destruct (normalize_filename filename w) as [[fn|e] w0] eqn:Hnorm;
    cbn [snd] in Hw; subst w0.
  - rewrite (bind_returns _ _ _ _ _ Hnorm).
    assert (klippy_free (if negb (String.eqb (first_dir_segment fn) ".cache")
                         then stage_job fn else ret fn)) as Hfree.
    { destruct (negb _); [apply klippy_free_stage_job|now apply klippy_free_same]. }
    destruct (Hfree w) as (es & Htrace & Hes). exists es. split; [exact Hes|].
    destruct ((if negb (String.eqb (first_dir_segment fn) ".cache")
               then stage_job fn else ret fn) w) as [[fn'|e] w1] eqn:Hstage;
      cbn [snd] in Htrace.
    + right. rewrite (bind_returns _ _ _ _ _ Hstage), wait_then_run_gcode_eq.
      exists (mkWebRequest "gcode/script"
                {[ "script" := VStr (sdcard_print_script fn') ]}).
      split; [reflexivity|]. cbn [fst snd trace log].
      rewrite Htrace. split; [now rewrite <- !app_assoc|].
      now rewrite <- !app_assoc.
    + left. rewrite (bind_raises _ _ _ _ _ Hstage). cbn [fst snd].
      split; [exact Htrace|now exists e].
  - exists []. split; [reflexivity|]. left.
    rewrite (bind_raises _ _ _ _ _ Hnorm). cbn [fst snd].
    split; [now rewrite app_nil_r|now exists e].
Qed.

(** ** The name in the script *)

Lemma bind_returns_inv {A B} (m : M A) (k : A -> M B) w b w' :
  bind m k w = (Returns b, w') ->
  exists a w1, m w = (Returns a, w1) /\ k a w1 = (Returns b, w').
Proof.
  unfold bind. destruct (m w) as [[a|e] w1]; [|discriminate].
  intros H. now exists a, w1.
Qed.

(** When [stage_job] returns, it returns the name of the staged copy. *)
Lemma stage_job_returns fn w name w' :
  stage_job fn w = (Returns name, w') ->
  name = os_path_join ".cache" (os_path_basename fn).
Proof.
  unfold stage_job. cbn zeta. intros H.
  do 6 (apply bind_returns_inv in H as (? & ? & _ & H)).
  unfold ret in H. now injection H as <- _.
Qed.

Lemma quotes_escaped_after_sep after pre post :
  quotes_escaped_from after (pre +:+ String sep post) = true ->
  quotes_escaped_from false post = true.
Proof.
  revert after. induction pre as [|c pre IH]; intros after.
  - rewrite append_nil. cbn. exact (fun H => H).
  - rewrite append_cons. cbn [quotes_escaped_from].
    destruct (Ascii.eqb c dquote).
    + intros [_ H]%andb_prop. exact (IH _ H).
    + apply IH.
Qed.

Lemma quotes_escaped_basename fn :
  quotes_escaped fn = true -> quotes_escaped (os_path_basename fn) = true.
Proof.
  unfold quotes_escaped, os_path_basename. rewrite str_rfind_last_pos.
  destruct (last_pos sep fn) as [k|] eqn:E.
  - destruct (last_pos_split sep fn k E) as (pre & post & -> & <- & _).
    rewrite str_from_app. apply quotes_escaped_after_sep.
  - unfold str_from. cbn. now rewrite Nat.sub_0_r, substring_whole.
Qed.

Lemma staged_name_eq fn :
  os_path_join ".cache" (os_path_basename fn) = ".cache/" +:+ os_path_basename fn.
Proof.
  rewrite os_path_join_relative;
    [reflexivity|discriminate|reflexivity|].
  apply no_sep_is_relative, os_path_basename_no_sep.
Qed.

Lemma quotes_escaped_staged name :
  quotes_escaped name = true -> quotes_escaped (".cache/" +:+ name) = true.
Proof.
  change (".cache/" +:+ name)
    with (String "." (String "c" (String "a" (String "c" (String "h"
           (String "e" (String "/" name))))))).
  intros H. exact H.
Qed.

Lemma klippy_free_no_request es req :
  forallb (fun e => negb (is_klippy_effect e)) es = true ->
  In (EffRequest req) es -> False.
Proof.
  intros Hes Hin. rewrite forallb_forall in Hes. apply Hes in Hin. discriminate.
Qed.

(** X13. The name between the quotes of the script.  Whenever a call of
    [start_print] sends a request, its script is
    [SDCARD_PRINT_FILE FILENAME="<name>"], where <name> is the normalized
    file name when the staging is skipped and [.cache/<basename>] of the
    normalized name when the file was staged; in <name> every double quote
    stands right after a backslash.  The normalized name of a file name
    without double quotes is the file name less one leading separator. *)
Theorem script_name_has_quotes_escaped filename w es req :
  trace (world_after (start_print filename) w) = (trace w ++ es)%list ->
  In (EffRequest req) es ->
  exists fn name,
    result_of (normalize_filename filename) w = Returns fn
    /\ (str_rfind dquote filename = -1 ->
        fn = (if str_startswith "/" filename then str_tail filename else filename))
    /\ name = (if str_startswith ".cache/" fn then fn
               else ".cache/" +:+ os_path_basename fn)
    /\ wr_method req = "gcode/script"
    /\ wr_params req
       = {[ "script" :=
              VStr ("SDCARD_PRINT_FILE FILENAME="
                    +:+ String dquote (name +:+ String dquote "")) ]}
    /\ quotes_escaped name = true.
Proof.
  unfold world_after, result_of. rewrite start_print_eq. intros Htrace Hin.
  pose proof (normalize_filename_world filename w) as Hw.
  destruct (normalize_filename filename w) as [[fn|e] w0] eqn:Hnorm;
    cbn [snd] in Hw; subst w0.
  2:{ rewrite (bind_raises _ _ _ _ _ Hnorm) in Htrace. cbn [snd] in Htrace.
      rewrite <- (app_nil_r (trace w)) in Htrace at 1.
      apply app_inv_head in Htrace as <-. destruct Hin. }
  assert (result_of (normalize_filename filename) w = Returns fn) as Hres
    by (unfold result_of; now rewrite Hnorm).
  destruct (normalize_filename_escapes filename fn w Hres) as [Hescaped Hplain].
  rewrite (bind_returns _ _ _ _ _ Hnorm) in Htrace.
  assert (String.eqb (first_dir_segment fn) ".cache" = str_startswith ".cache/" fn)
    as Hseg.
  { destruct (str_startswith ".cache/" fn) eqn:E.
    - apply String.eqb_eq. now apply first_dir_segment_is_cache_iff.
    - apply String.eqb_neq. intros H%first_dir_segment_is_cache_iff. congruence. }
  rewrite Hseg in Htrace.
  exists fn. eexists. split; [reflexivity|]. split; [exact Hplain|].
  split; [reflexivity|].
  destruct (str_startswith ".cache/" fn); cbn [negb] in Htrace.
  - rewrite (bind_returns _ _ w fn w) in Htrace by reflexivity.
    rewrite wait_then_run_gcode_eq in Htrace. cbn [snd trace log] in Htrace.
    rewrite <- app_assoc in Htrace. apply app_inv_head in Htrace as <-.
    destruct Hin as [Hin|[Hin|[]]]; [discriminate|]. injection Hin as <-.
    now repeat split.
  - destruct (klippy_free_stage_job fn w) as (es0 & Ht0 & Hes0).
    destruct (stage_job fn w) as [[name|e] w1] eqn:Hstage; cbn [snd] in Ht0.
    + apply stage_job_returns in Hstage as Hname. rewrite staged_name_eq in Hname.
      subst name. rewrite (bind_returns _ _ _ _ _ Hstage) in Htrace.
      rewrite wait_then_run_gcode_eq in Htrace. cbn [snd trace log] in Htrace.
      rewrite Ht0, <- !app_assoc in Htrace. apply app_inv_head in Htrace as <-.
      apply in_app_or in Hin as [Hin|[Hin|[Hin|[]]]];
        [now destruct (klippy_free_no_request _ _ Hes0 Hin)|discriminate|].
      injection Hin as <-. split; [reflexivity|]. split; [reflexivity|].
      now apply quotes_escaped_staged, quotes_escaped_basename.
    + rewrite (bind_raises _ _ _ _ _ Hstage) in Htrace. cbn [snd] in Htrace.
      rewrite Ht0 in Htrace. apply app_inv_head in Htrace as <-.
      now destruct (klippy_free_no_request _ _ Hes0 Hin).
Qed.

End Component.

(** * The properties at concrete inputs *)

Lemma send_klippy_request_default_witness :
  _send_klippy_request disconnected "info" ∅ SENTINEL fresh
  = (Raised (ServerError "Klippy Disconnected" 503),
     log (EffRequest (mkWebRequest "info" ∅)) fresh)
  /\ _send_klippy_request disconnected "info" ∅ VNone fresh
     = (Returns VNone, log (EffRequest (mkWebRequest "info" ∅)) fresh).
Proof.
  destruct (send_klippy_request_default disconnected "info" ∅ fresh
              (ServerError "Klippy Disconnected" 503) eq_refl eq_refl)
    as [Hraise Hdefault].
  split; [exact Hraise|exact (Hdefault VNone eq_refl)].
Defined.

(** [subscribe_objects({"extruder": None})], then
    [subscribe_objects({"extruder": ["temperature"]})]. *)
Lemma all_fields_never_narrowed_witness :
  host_subscription
    (subscribe_all reporting elements
       [({[ "extruder" := Some ["temperature"] ]}, SENTINEL)]
       (subscribe_all reporting elements [({[ "extruder" := None ]}, SENTINEL)] fresh))
    !! "extruder" = Some None.
Proof.
  apply (all_fields_never_narrowed reporting elements "extruder").
  vm_compute. reflexivity.
Defined.

Lemma merge_is_union_in_any_order_witness :
  exists fields,
    host_subscription
      (subscribe_all disconnected elements
         [({[ "extruder" := Some ["target"; "temperature"] ]}, VNone);
          ({[ "extruder" := Some ["temperature"] ]}, SENTINEL)]
         fresh) !! "extruder" = Some (Some fields)
    /\ list_to_set fields
       =@{gset string} ⋃ (list_to_set <$> [["temperature"]; ["target"; "temperature"]]).
Proof.
  apply (merge_is_union_in_any_order disconnected elements
           (fun X => Permutation_refl (elements X)) "extruder"
           [({[ "extruder" := Some ["temperature"] ]}, SENTINEL);
            ({[ "extruder" := Some ["target"; "temperature"] ]}, VNone)]).
  - reflexivity.
  - discriminate.
  - repeat constructor.
  - apply perm_swap.
Defined.

Lemma subscribe_objects_sends_whole_registry_witness :
  trace (world_after
           (subscribe_objects reporting elements {[ "toolhead" := Some ["position"] ]} SENTINEL)
           (mkWorld {[ "extruder" := None ]} ∅ []))
  = [EffRequest (mkWebRequest "objects/subscribe"
       {[ "objects" :=
            VDict (<[ "extruder" := VNone ]>
                     {[ "toolhead" := VList [VStr "position"] ]}) ]})]
  /\ result_of
       (subscribe_objects reporting elements {[ "toolhead" := Some ["position"] ]} SENTINEL)
       (mkWorld {[ "extruder" := None ]} ∅ [])
     = Returns toolhead_status.
Proof.
  destruct (subscribe_objects_sends_whole_registry reporting elements
              {[ "toolhead" := Some ["position"] ]} SENTINEL
              (mkWorld {[ "extruder" := None ]} ∅ []))
    as (_ & _ & _ & Htrace & Hreply).
  split.
  - rewrite Htrace. vm_compute. reflexivity.
  - destruct (Hreply (VDict {[ "status" := toolhead_status ]}) eq_refl) as [Hstatus _].
    exact (Hstatus {[ "status" := toolhead_status ]} toolhead_status eq_refl eq_refl).
Defined.


Lemma do_restart_disconnected_is_ok_witness :
  result_of (do_restart disconnected "RESTART") fresh = Returns (VStr "ok")
  /\ result_of (do_restart disconnected "FIRMWARE_RESTART") fresh = Returns (VStr "ok")
  /\ result_of (do_restart timing_out "RESTART") fresh
     = Raised (ServerError "Klippy Request Timed Out" 500).
Proof.
  split; [|split].
  - exact (proj1 (do_restart_disconnected_is_ok disconnected "RESTART" fresh
                    (ServerError "Klippy Disconnected" 503) eq_refl)
                 503 eq_refl).
  - exact (proj1 (do_restart_disconnected_is_ok disconnected "FIRMWARE_RESTART" fresh
                    (ServerError "Klippy Disconnected" 503) eq_refl)
                 503 eq_refl).
  - apply (proj2 (do_restart_disconnected_is_ok timing_out "RESTART" fresh
                    (ServerError "Klippy Request Timed Out" 500) eq_refl)).
    intros code. discriminate.
Defined.

Lemma query_objects_and_object_list_unwrap_witness :
  result_of (query_objects reporting toolhead_position SENTINEL) fresh
  = Returns toolhead_status
  /\ result_of (get_object_list reporting SENTINEL) fresh
     = Returns (VDict {[ "status" := toolhead_status ]}).
Proof.
  destruct (query_objects_and_object_list_unwrap reporting SENTINEL fresh)
    as (_ & Hlist & Hexample).
  split.
  - exact (Hexample eq_refl).
  - destruct (Hlist (VDict {[ "status" := toolhead_status ]}) eq_refl) as [_ Hraw].
    apply Hraw. intros d Hd. injection Hd as <-. reflexivity.
Defined.

Lemma start_print_empty_filename_witness :
  start_print disconnected roomy 4096 "/home/mks" ∅ (fun _ => "null") "" printer
  = (Raised IndexError, printer)
  /\ exists fn, normalize_filename "/a.gcode" printer = (Returns fn, printer).
Proof.
  destruct (start_print_empty_filename disconnected roomy 4096 "/home/mks" ∅
              (fun _ => "null")) as (Hempty & _ & Htotal).
  split.
  - exact (Hempty printer).
  - apply Htotal. discriminate.
Defined.

(** The file name [.cache], which is its own first segment, is staged: the
    cache directory is removed with the file in it and made again. *)
Lemma start_print_stages_bare_cache_name :
  hd "" (str_split sep ".cache") = ".cache"
  /\ result_of (normalize_filename ".cache") printer = Returns ".cache"
  /\ trace (world_after
              (start_print disconnected roomy 4096 "/home/mks" ∅ (fun _ => "null") ".cache")
              printer)
     = [EffRmtree "/home/mks/gcode_files/.cache";
        EffMakedirs "/home/mks/gcode_files/.cache";
        EffCopy "/home/mks/gcode_files/.cache" "/home/mks/gcode_files/.cache/.cache"]
  /\ fs_nodes printer !! "/home/mks/gcode_files/.cache/old.gcode" = Some (File [Byte.x4d])
  /\ fs_nodes (world_after
                 (start_print disconnected roomy 4096 "/home/mks" ∅ (fun _ => "null") ".cache")
                 printer)
     !! "/home/mks/gcode_files/.cache/old.gcode" = None.
Proof. vm_compute. repeat split; reflexivity. Qed.

Lemma start_print_skips_staging_witness :
  trace (world_after
           (start_print disconnected roomy 4096 "/home/mks" ∅ (fun _ => "null")
              "/.cache/a.gcode")
           printer)
  = [EffWaitStarted;
     EffRequest (mkWebRequest "gcode/script"
       {[ "script" :=
            VStr ("SDCARD_PRINT_FILE FILENAME="
                  +:+ String dquote (".cache/a.gcode" +:+ String dquote "")) ]})]
  /\ fs_nodes (world_after
                 (start_print disconnected roomy 4096 "/home/mks" ∅ (fun _ => "null")
                    "/.cache/a.gcode")
                 printer)
     = printer_disk.
Proof.
  destruct (start_print_skips_staging disconnected roomy 4096 "/home/mks" ∅
              (fun _ => "null") "/.cache/a.gcode" ".cache/a.gcode" printer
              eq_refl eq_refl)
    as (Htrace & Hnodes & _).
  split; [exact Htrace|exact Hnodes].
Defined.

(** C5. [copy_file_to_cache] measures the root file system, whatever file
    system holds the target (line 257, [os.statvfs("/")]), so the test of
    line 260 does not protect the copy of line 261.  With room on the root
    and none on the partition of the target, the three bytes of the job
    pass the test, the copy is attempted and fails in the middle: the error
    is the one of the operating system, no low-space message is announced,
    and the target exists afterwards with none of the three bytes.  With a
    full root and room on the partition of the target, the file fits where
    it is to be copied and the staging is refused all the same. *)
Theorem copy_file_to_cache_measures_root_only :
  (Z.of_nat (length job_bytes)
   < f_frsize (home_full [] "/") * f_bfree (home_full [] "/")
   /\ f_frsize (home_full [] staged_path) * f_bfree (home_full [] staged_path)
      < Z.of_nat (length job_bytes)
   /\ copy_file_to_cache home_full 4096 job_path staged_path printer
      = (Raised (OSError "ENOSPC"),
         mkWorld ∅ (<[ staged_path := File [] ]> printer_disk)
           [EffCopy job_path staged_path]))
  /\ (Z.of_nat (length job_bytes)
      < f_frsize (root_full [] staged_path) * f_bfree (root_full [] staged_path)
      /\ copy_file_to_cache root_full 4096 job_path staged_path printer
         = (Raised (ServerError "Insufficient disk space, unable to read the file."
                      500),
            mkWorld ∅ printer_disk
              [EffSendEvent "server:gcode_response"
                 (Some (VStr "!! Insufficient disk space, unable to read the file."))])).
Proof. vm_compute. repeat split; reflexivity. Qed.

Lemma send_klippy_request_default_is_for_server_errors_witness :
  result_of (_send_klippy_request broken "info" ∅ VNone) fresh
  = Raised (OtherError "ConnectionResetError")
  /\ result_of (_send_klippy_request reporting "info" ∅ VNone) fresh
     = Returns (VDict {[ "status" := toolhead_status ]}).
Proof.
  split.
  - exact (proj1 (send_klippy_request_default_is_for_server_errors
                    broken "info" ∅ VNone fresh) _ eq_refl eq_refl).
  - exact (proj2 (send_klippy_request_default_is_for_server_errors
                    reporting "info" ∅ VNone fresh) _ eq_refl).
Defined.

Lemma commands_without_default_raise_witness :
  result_of (emergency_stop disconnected) fresh
  = Raised (ServerError "Klippy Disconnected" 503)
  /\ result_of (subscribe_gcode_output disconnected) fresh
     = Raised (ServerError "Klippy Disconnected" 503)
  /\ result_of (register_method disconnected "shutdown_machine") fresh
     = Raised (ServerError "Klippy Disconnected" 503).
Proof.
  destruct (commands_without_default_raise disconnected
              (ServerError "Klippy Disconnected" 503) fresh)
    as (Hstop & Houtput & Hregister).
  split; [exact (Hstop eq_refl)|].
  split; [exact (Houtput eq_refl)|exact (Hregister "shutdown_machine" eq_refl)].
Defined.

Lemma print_handlers_raise_witness :
  result_of (_gcode_pause timing_out) fresh
  = Raised (ServerError "Klippy Request Timed Out" 500)
  /\ In (EffSendEvent "klippy_apis:pause_requested" None)
        (trace (world_after (_gcode_pause timing_out) fresh)).
Proof.
  exact (proj1 (print_handlers_raise timing_out
                  (ServerError "Klippy Request Timed Out" 500) fresh) eq_refl).
Defined.

Lemma fallback_is_unwrapped_witness :
  result_of (query_objects timing_out toolhead_position
               (VDict {[ "status" := VStr "unknown" ]})) fresh
  = Returns (VStr "unknown").
Proof.
  exact (proj1 (fallback_is_unwrapped timing_out elements toolhead_position
                  {[ "status" := VStr "unknown" ]} (VStr "unknown")
                  (ServerError "Klippy Request Timed Out" 500) fresh eq_refl)
               eq_refl eq_refl).
Defined.

Lemma subscribe_objects_touches_requested_only_witness :
  host_subscription
    (world_after (subscribe_objects timing_out elements toolhead_position SENTINEL)
                 subscribed) !! "extruder"
  = Some (Some ["temperature"])
  /\ host_subscription
       (world_after
          (subscribe_objects timing_out elements {[ "fan" := Some ["speed"; "speed"] ]} VNone)
          subscribed) !! "fan"
     = Some (Some ["speed"; "speed"]).
Proof.
  split.
  - exact (proj1 (subscribe_objects_touches_requested_only timing_out elements
                    toolhead_position SENTINEL subscribed "extruder") eq_refl).
  - exact (proj2 (subscribe_objects_touches_requested_only timing_out elements
                    {[ "fan" := Some ["speed"; "speed"] ]} VNone subscribed "fan")
                 _ eq_refl eq_refl).
Defined.

Lemma all_fields_request_wins_witness :
  host_subscription
    (world_after (subscribe_objects reporting elements {[ "extruder" := None ]} SENTINEL)
                 subscribed) !! "extruder"
  = Some None.
Proof.
  exact (all_fields_request_wins reporting elements {[ "extruder" := None ]}
           SENTINEL subscribed "extruder" eq_refl).
Defined.

Lemma merged_fields_are_deduplicated_union_witness :
  exists fields,
    host_subscription
      (world_after
         (subscribe_objects reporting elements
            {[ "extruder" := Some ["target"; "temperature"; "target"] ]} SENTINEL)
         subscribed) !! "extruder"
    = Some (Some fields)
    /\ NoDup fields
    /\ forall f, f ∈ fields
                 <-> f ∈ ["temperature"] \/ f ∈ ["target"; "temperature"; "target"].
Proof.
  exact (merged_fields_are_deduplicated_union reporting elements
           (fun X => Permutation_refl (elements X))
           {[ "extruder" := Some ["target"; "temperature"; "target"] ]}
           SENTINEL subscribed "extruder" ["temperature"]
           ["target"; "temperature"; "target"] eq_refl eq_refl).
Defined.

Lemma subscriptions_are_never_lost_witness :
  is_Some
    (host_subscription
       (subscribe_all disconnected elements
          [({[ "fan" := None ]}, SENTINEL); ({[ "extruder" := Some ["target"] ]}, VNone)]
          subscribed) !! "toolhead").
Proof.
  apply (proj1 (subscriptions_are_never_lost disconnected elements
                  (fun X => Permutation_refl (elements X))
                  [({[ "fan" := None ]}, SENTINEL);
                   ({[ "extruder" := Some ["target"] ]}, VNone)]
                  subscribed "toolhead")).
  exists None. reflexivity.
Defined.

Lemma items_order_is_irrelevant_witness :
  merge_items elements
    [("toolhead", Some ["position"]); ("extruder", Some ["target"])] two_objects
  = merge_subscription elements
      (<[ "extruder" := Some ["target"] ]> {[ "toolhead" := Some ["position"] ]})
      two_objects
  /\ merge_items elements
       [("extruder", Some ["target"]); ("toolhead", Some ["position"])] two_objects
     = merge_subscription elements
         (<[ "extruder" := Some ["target"] ]> {[ "toolhead" := Some ["position"] ]})
         two_objects.
Proof.
  split; apply (items_order_is_irrelevant elements).
  - vm_compute. apply Permutation_refl || apply perm_swap.
  - vm_compute. apply Permutation_refl || apply perm_swap.
Defined.

Lemma subscribing_again_changes_no_fields_witness :
  entry_fields
    (host_subscription
       (world_after
          (subscribe_objects reporting elements {[ "extruder" := Some ["target"] ]} VNone)
          (world_after
             (subscribe_objects reporting elements {[ "extruder" := Some ["target"] ]} SENTINEL)
             subscribed)) !! "extruder")
  = entry_fields
      (host_subscription
         (world_after
            (subscribe_objects reporting elements {[ "extruder" := Some ["target"] ]} SENTINEL)
            subscribed) !! "extruder").
Proof.
  exact (subscribing_again_changes_no_fields reporting elements
           (fun X => Permutation_refl (elements X))
           {[ "extruder" := Some ["target"] ]} SENTINEL VNone subscribed "extruder").
Defined.

(** The job [/sub/a.gcode] is staged and goes into the script as
    [.cache/a.gcode]; a job of the cache is named as it is, its quote
    escaped. *)
Lemma script_name_has_quotes_escaped_witness :
  (exists fn name,
     result_of (normalize_filename "/sub/a.gcode") printer_with_folder = Returns fn
     /\ (str_rfind dquote "/sub/a.gcode" = -1 ->
         fn = (if str_startswith "/" "/sub/a.gcode"
               then str_tail "/sub/a.gcode" else "/sub/a.gcode"))
     /\ name = (if str_startswith ".cache/" fn then fn
                else ".cache/" +:+ os_path_basename fn)
     /\ wr_method staged_request = "gcode/script"
     /\ wr_params staged_request
        = {[ "script" :=
               VStr ("SDCARD_PRINT_FILE FILENAME="
                     +:+ String dquote (name +:+ String dquote "")) ]}
     /\ quotes_escaped name = true)
  /\ (exists fn name,
        result_of (normalize_filename quoted_name) printer = Returns fn
        /\ (str_rfind dquote quoted_name = -1 ->
            fn = (if str_startswith "/" quoted_name
                  then str_tail quoted_name else quoted_name))
        /\ name = (if str_startswith ".cache/" fn then fn
                   else ".cache/" +:+ os_path_basename fn)
        /\ wr_method quoted_request = "gcode/script"
        /\ wr_params quoted_request
           = {[ "script" :=
                  VStr ("SDCARD_PRINT_FILE FILENAME="
                        +:+ String dquote (name +:+ String dquote "")) ]}
        /\ quotes_escaped name = true).
Proof.
  split.
  - apply (script_name_has_quotes_escaped reporting roomy 4096 "/home/mks" ∅
             (fun _ => "null") "/sub/a.gcode" printer_with_folder
             [EffRmtree "/home/mks/gcode_files/.cache";
              EffMakedirs "/home/mks/gcode_files/.cache";
              EffCopy "/home/mks/gcode_files/sub/a.gcode"
                "/home/mks/gcode_files/.cache/a.gcode";
              EffSendEvent "server:gcode_response" (Some (VStr "// metadata=null"));
              EffWaitStarted;
              EffRequest staged_request]
             staged_request).
    + vm_compute. reflexivity.
    + do 5 right. left. reflexivity.
  - apply (script_name_has_quotes_escaped reporting roomy 4096 "/home/mks" ∅
             (fun _ => "null") quoted_name printer
             [EffWaitStarted; EffRequest quoted_request] quoted_request).
    + vm_compute. reflexivity.
    + right. left. reflexivity.
Defined.

Lemma copy_file_to_cache_writes_destination_only_witness :
  fs_nodes
    (world_after
       (copy_file_to_cache roomy 4096 "/home/mks/gcode_files/a.gcode"
          "/home/mks/gcode_files/.cache")
       printer) !! "/home/mks/gcode_files/.cache/old.gcode"
  = Some (File [Byte.x4d]).
Proof.
  rewrite (proj1 (copy_file_to_cache_writes_destination_only roomy 4096
                    "/home/mks/gcode_files/a.gcode" "/home/mks/gcode_files/.cache"
                    printer "/home/mks/gcode_files/.cache/old.gcode")).
  - reflexivity.
  - vm_compute. discriminate.
Defined.



